(** * 3d_object_detection_platform: response extraction, projection, rendering

    A shallow embedding of [modules/api_client.py], [modules/visualization.py]
    and [modules/visualization_2d.py], and the properties the specification
    states about them.

    Conventions of the embedding
    - a Python [str] is a list of Unicode code points ([text]);
    - a Python call that may raise returns an [outcome]: [Ret v] or
      [Raise e]; a [try ... except] is a match on it;
    - [print] is not modelled unless a property speaks about the log;
    - the numbers of the 2D renderer are binary64 floats, as Python has
      them; those of the 3D projection, which needs [cos] and [sin], are
      idealised as real numbers: finite and exact, so the overflow of
      binary64 to an infinity, and the exceptions that [math.cos],
      [math.sin] and [int] raise on an infinity or a NaN, are outside the
      model of the 3D code. *)

From Stdlib Require Import String Ascii.
From Stdlib Require Import Floats.
From Stdlib Require Import Reals Lra.
From Stdlib Require Import List Bool Arith ZArith NArith Lia.
Import ListNotations.

Set Implicit Arguments.
Set Warnings "-register-all".

(* ================================================================== *)
(** * Python results and exceptions *)

Module Py.

Inductive exn : Type :=
| JSONDecodeError
| IndexError
| KeyError
| ValueError
| TypeError
| ZeroDivisionError
| OverflowError
| OtherError.

Definition exn_eqb (a b : exn) : bool :=
  match a, b with
  | JSONDecodeError, JSONDecodeError | IndexError, IndexError
  | KeyError, KeyError | ValueError, ValueError | TypeError, TypeError
  | ZeroDivisionError, ZeroDivisionError | OverflowError, OverflowError
  | OtherError, OtherError => true
  | _, _ => false
  end.

Inductive outcome (A : Type) : Type :=
| Ret (a : A)
| Raise (e : exn).
Arguments Raise {A} e.

Definition bind {A B} (m : outcome A) (k : A -> outcome B) : outcome B :=
  match m with
  | Ret a => k a
  | Raise e => Raise e
  end.

(** [for x in xs: acc = body x acc], stopping at the first exception. *)
Fixpoint for_each {A S} (xs : list A) (body : A -> S -> outcome S) (s : S)
  : outcome S :=
  match xs with
  | [] => Ret s
  | x :: xs' => bind (body x s) (for_each xs' body)
  end.

End Py.

Import Py.

Declare Scope py_scope.
Delimit Scope py_scope with py.
Notation "x <- m ;; k" := (Py.bind m (fun x => k))
  (at level 61, m at next level, right associativity) : py_scope.

(* ================================================================== *)
(** * Python strings *)

Module Text.

Definition char := N.
Definition text := list char.

(** A string literal of the source, as code points. *)
Fixpoint lit (s : string) : text :=
  match s with
  | EmptyString => []
  | String a s' => N_of_ascii a :: lit s'
  end.

Fixpoint eqb (a b : text) : bool :=
  match a, b with
  | [], [] => true
  | x :: a', y :: b' => N.eqb x y && eqb a' b'
  | _, _ => false
  end.

(** [str.isspace] on one code point (Unicode whitespace as CPython has it). *)
Definition is_space (c : char) : bool :=
  ((9 <=? c) && (c <=? 13) || (28 <=? c) && (c <=? 32)
   || (c =? 133) || (c =? 160) || (c =? 5760)
   || (8192 <=? c) && (c <=? 8202)
   || (c =? 8232) || (c =? 8233) || (c =? 8239) || (c =? 8287)
   || (c =? 12288))%N.

(** Line boundaries of [str.splitlines]. *)
Definition is_linebreak (c : char) : bool :=
  ((10 <=? c) && (c <=? 13) || (28 <=? c) && (c <=? 30)
   || (c =? 133) || (c =? 8232) || (c =? 8233))%N.

Fixpoint lstrip (s : text) : text :=
  match s with
  | [] => []
  | c :: s' => if is_space c then lstrip s' else s
  end.

Definition rstrip (s : text) : text := rev (lstrip (rev s)).

(** [s.strip()] *)
Definition strip (s : text) : text := rstrip (lstrip s).

(** [s.startswith(p)] *)
Fixpoint startswith (s p : text) : bool :=
  match p, s with
  | [], _ => true
  | x :: p', y :: s' => N.eqb x y && startswith s' p'
  | _ :: _, [] => false
  end.

(** [s.endswith(p)] *)
Definition endswith (s p : text) : bool := startswith (rev s) (rev p).

(** [sub in s] *)
Fixpoint contains (sub s : text) : bool :=
  startswith s sub ||
  match s with
  | [] => false
  | _ :: s' => contains sub s'
  end.

(** [s.splitlines()]: [cur] is the line being read, reversed.  A carriage
    return followed by a line feed is one boundary; a final boundary opens
    no empty last line. *)
Fixpoint splitlines_from (cur : text) (s : text) : list text :=
  match s with
  | [] => match cur with [] => [] | _ => [rev cur] end
  | c :: s' =>
      if is_linebreak c then
        rev cur ::
        match s' with
        | d :: s'' =>
            if ((c =? 13) && (d =? 10))%N then splitlines_from [] s''
            else splitlines_from [] s'
        | [] => []
        end
      else splitlines_from (c :: cur) s'
  end.

Definition splitlines (s : text) : list text := splitlines_from [] s.

(** [sep.join(parts)] *)
Fixpoint join (sep : text) (parts : list text) : text :=
  match parts with
  | [] => []
  | [p] => p
  | p :: rest => p ++ sep ++ join sep rest
  end.

(** [s.split(sep)] for a non-empty [sep]: a left-to-right scan for
    non-overlapping occurrences.  [skip] counts the characters of a
    separator just matched that are still to be passed over; [cur] is the
    piece being read, reversed. *)
Fixpoint split_from (sep : text) (skip : nat) (cur : text) (s : text)
  : list text :=
  match s with
  | [] => [rev cur]
  | c :: s' =>
      match skip with
      | S k => split_from sep k cur s'
      | O =>
          if startswith s sep
          then rev cur :: split_from sep (length sep - 1) [] s'
          else split_from sep 0 (c :: cur) s'
      end
  end.

Definition split (s sep : text) : list text := split_from sep 0 [] s.

(** [s.replace(old, new)] for a non-empty [old]. *)
Fixpoint replace_from (old new : text) (skip : nat) (s : text) : text :=
  match s with
  | [] => []
  | c :: s' =>
      match skip with
      | S k => replace_from old new k s'
      | O =>
          if startswith s old
          then new ++ replace_from old new (length old - 1) s'
          else c :: replace_from old new 0 s'
      end
  end.

Definition replace (s old new : text) : text := replace_from old new 0 s.

(** [s.find(c)] for a one-character string [c]: first index or -1. *)
Fixpoint find_from (i : Z) (s : text) (c : char) : Z :=
  match s with
  | [] => (-1)%Z
  | x :: s' => if (x =? c)%N then i else find_from (i + 1)%Z s' c
  end.

Definition find (s : text) (c : char) : Z := find_from 0%Z s c.

(** [s.rfind(c)]: last index or -1. *)
Fixpoint rfind_from (i best : Z) (s : text) (c : char) : Z :=
  match s with
  | [] => best
  | x :: s' => rfind_from (i + 1)%Z (if (x =? c)%N then i else best) s' c
  end.

Definition rfind (s : text) (c : char) : Z := rfind_from 0%Z (-1)%Z s c.

(** [s[a:b]] for indices [0 <= a], [0 <= b]. *)
Definition slice (s : text) (a b : Z) : text :=
  firstn (Z.to_nat (b - a)) (skipn (Z.to_nat a) s).

(** [l[i]] on a list, with Python's [IndexError]. *)
Definition index {A} (l : list A) (i : nat) : outcome A :=
  match nth_error l i with
  | Some a => Ret a
  | None => Raise IndexError
  end.

End Text.

Import Text.

(* ================================================================== *)
(** * Decoded JSON values *)

Module Json.

(** What [json.loads] returns: [None], [bool], numbers, [str], [list],
    [dict].  The number type is left open; the response parser never
    looks at it. *)
Inductive pyval (num : Type) : Type :=
| PNone
| PBool (b : bool)
| PNum (x : num)
| PStr (s : text)
| PList (l : list (pyval num))
| PDict (d : list (text * pyval num)).
Arguments PNone {num}.
Arguments PBool {num} b.
Arguments PStr {num} s.

End Json.

Import Json.

(* ================================================================== *)
(** * modules/api_client.py *)

Module ApiClient.

Definition fence : text := lit "```".
Definition fence_json : text := lit "```json".
Definition json_word : text := lit "json".
Definition newline : text := [10%N].
Definition open_bracket : char := 91%N.   (* '[' *)
Definition close_bracket : char := 93%N.  (* ']' *)
Definition open_brace : char := 123%N.    (* '{' *)
Definition close_brace : char := 125%N.   (* '}' *)

(** The two tests of the loop over the lines. *)
Definition is_json_fence_line (line : text) : bool :=
  Text.eqb (strip line) fence_json.

Definition is_inline_fence_line (line : text) : bool :=
  startswith (strip line) fence && contains json_word (strip line).

(** The [for i, line in enumerate(lines)] loop of [parse_json_response]:
    [rest] is [lines[i+1:]].  [None] when the loop ends without a
    [return]. *)
Fixpoint scan_lines (lines : list text) : option (outcome text) :=
  match lines with
  | [] => None
  | line :: rest =>
      if is_json_fence_line line then
        Some (let json_output := join newline rest in
              json_output <- index (split json_output fence) 0 ;;
              Ret (strip json_output))%py
      else if is_inline_fence_line line then
        Some (part <- index (split line fence) 1 ;;
              let json_part := strip (replace part json_word []) in
              let remaining := join newline rest in
              let json_output := json_part ++ newline ++ remaining in
              json_output <- index (split json_output fence) 0 ;;
              Ret (strip json_output))%py
      else scan_lines rest
  end.

(** The code after the loop, on the stripped text. *)
Definition bare_json (text : Text.text) : Text.text :=
  if startswith text [open_bracket] && endswith text [close_bracket] then text
  else if startswith text [open_brace] && endswith text [close_brace] then text
  else
    let start_idx := find text open_bracket in
    let end_idx := rfind text close_bracket in
    if negb (start_idx =? -1)%Z && negb (end_idx =? -1)%Z
       && (end_idx >? start_idx)%Z
    then slice text start_idx (end_idx + 1)
    else
      let start_idx := find text open_brace in
      let end_idx := rfind text close_brace in
      if negb (start_idx =? -1)%Z && negb (end_idx =? -1)%Z
         && (end_idx >? start_idx)%Z
      then slice text start_idx (end_idx + 1)
      else text.

Definition parse_json_response (text : Text.text) : outcome Text.text :=
  match text with
  | [] => Ret []
  | _ =>
      let lines := splitlines text in
      match scan_lines lines with
      | Some r => r
      | None => Ret (bare_json (strip text))
      end
  end.

Section Parsers.

(** [json.loads] belongs to Python's library, not to this repository. *)
Variable num : Type.
Variable json_loads : text -> outcome (pyval num).

Definition record := pyval num.

(** A printed line: the fixed prefix and the exception shown after it. *)
Definition log := list (text * exn).

(** The prefix of the message of the 3D parser's handler. *)
Definition failed_3d : text :=
  [35299; 26512; 51; 68; 36793; 30028; 26694; 22833; 36133; 58; 32]%N.

(** The prefix of the message of the 2D parser's handler. *)
Definition failed_2d : text :=
  [35299; 26512; 50; 68; 36793; 30028; 26694; 22833; 36133; 58; 32]%N.

(** [try: body  except (caught) as e: print(prefix + e); return []] *)
Definition try_except {A} (body : outcome A) (caught : list exn)
           (handler : exn -> outcome A * log) : outcome A * log :=
  match body with
  | Ret v => (Ret v, [])
  | Raise e => if existsb (exn_eqb e) caught then handler e else (Raise e, [])
  end.

Definition parse_bbox_3d_from_text (text : Text.text)
  : outcome (list record) * log :=
  try_except
    (json_str <- parse_json_response text ;;
     match json_str with
     | [] => Ret []
     | _ =>
         bbox_data <- json_loads json_str ;;
         match bbox_data with
         | PList l => Ret l
         | PDict _ => Ret [bbox_data]
         | _ => Ret []
         end
     end)%py
    [JSONDecodeError; IndexError; KeyError]
    (fun e => (Ret [], [(failed_3d, e)])).

Definition parse_bbox_2d_from_text (text : Text.text)
  : outcome (list record) * log :=
  try_except
    (json_str <- parse_json_response text ;;
     match json_str with
     | [] => Ret []
     | _ =>
         bbox_data <- json_loads json_str ;;
         match bbox_data with
         | PList l => Ret l
         | PDict _ => Ret [bbox_data]
         | _ => Ret []
         end
     end)%py
    [JSONDecodeError; IndexError; KeyError]
    (fun e => (Ret [], [(failed_2d, e)])).

End Parsers.

End ApiClient.

(* ================================================================== *)
(** * modules/visualization.py *)

Module Vis3D.

Local Open Scope R_scope.

(** The camera dictionary with its four keys. *)
Record cam_params : Type := { fx : R; fy : R; cx : R; cy : R }.

Definition point3 : Type := R * R * R.
Definition pixel : Type := R * R.

(** [a / b] on Python floats raises on a zero divisor. *)
Definition py_div (a b : R) : outcome R :=
  if Req_dec_T b 0 then Raise ZeroDivisionError else Ret (a / b).

(** Lines 70-90 of [convert_3dbbox]: the rotations of one local corner
    and the translation by the box centre. *)
Definition world_corner
           (x y z cos_roll sin_roll cos_pitch sin_pitch cos_yaw sin_yaw : R)
           (corner : point3) : point3 :=
  let '(x0, y0, z0) := corner in
  (* Yaw *)
  let x1 := x0 * cos_yaw + z0 * sin_yaw in
  let y1 := y0 in
  let z1 := - x0 * sin_yaw + z0 * cos_yaw in
  (* Pitch *)
  let x2 := x1 in
  let y2 := y1 * cos_pitch - z1 * sin_pitch in
  let z2 := y1 * sin_pitch + z1 * cos_pitch in
  (* Roll *)
  let x3 := x2 * cos_roll - y2 * sin_roll in
  let y3 := x2 * sin_roll + y2 * cos_roll in
  let z3 := z2 in
  (x3 + x, y3 + y, z3 + z).

(** Lines 93-96: the projection of a world point, appended to
    [img_corners] when it is in front of the camera. *)
Definition project_append (cam_params : cam_params) (P : point3)
           (img_corners : list pixel) : outcome (list pixel) :=
  let '(X, Y, Z) := P in
  if Rgt_dec Z 0 then
    (qx <- py_div X Z ;;
     let x_2d := fx cam_params * qx + cx cam_params in
     qy <- py_div Y Z ;;
     let y_2d := fy cam_params * qy + cy cam_params in
     Ret (img_corners ++ [(x_2d, y_2d)]))%py
  else Ret img_corners.

Definition local_corners (hx hy hz : R) : list point3 :=
  [ ( hx,  hy,  hz);
    ( hx,  hy, -hz);
    ( hx, -hy,  hz);
    ( hx, -hy, -hz);
    (-hx,  hy,  hz);
    (-hx,  hy, -hz);
    (-hx, -hy,  hz);
    (-hx, -hy, -hz) ].

(** [point] is unpacked into nine names; any other length raises. *)
Definition convert_3dbbox (point : list R) (cam_params : cam_params)
  : outcome (list pixel) :=
  match point with
  | [x; y; z; x_size; y_size; z_size; pitch; yaw; roll] =>
      let hx := x_size / 2 in
      let hy := y_size / 2 in
      let hz := z_size / 2 in
      let cos_roll := cos roll in
      let sin_roll := sin roll in
      let cos_pitch := cos pitch in
      let sin_pitch := sin pitch in
      let cos_yaw := cos yaw in
      let sin_yaw := sin yaw in
      for_each (local_corners hx hy hz)
        (fun corner img_corners =>
           project_append cam_params
             (world_corner x y z cos_roll sin_roll cos_pitch sin_pitch
                           cos_yaw sin_yaw corner)
             img_corners)
        []
  | _ => Raise ValueError
  end.

(** ** The renderer *)

(** A detection record as the renderer tells them apart: a dictionary
    with the key [bbox_3d] (and perhaps [label]), or anything else, taken
    as the geometry itself.  The geometry is a list of numbers of any
    length. *)
Inductive detection : Type :=
| DDict (bbox_3d : list R) (label : option text)
| DList (bbox_3d : list R).

Definition color : Type := Z * Z * Z.
Definition point : Type := Z * Z.

(** [np.deg2rad] *)
Definition deg2rad (d : R) : R := d * (PI / 180).

(** [int(x)] on a float: truncation towards zero. *)
Definition py_int (r : R) : Z :=
  if Rle_dec 0 r then (up r - 1)%Z else (- (up (- r) - 1))%Z.

(** [l[i] = v] for an index known to exist. *)
Fixpoint list_set {A} (l : list A) (i : nat) (v : A) : list A :=
  match l, i with
  | [], _ => []
  | _ :: l', O => v :: l'
  | a :: l', S i' => a :: list_set l' i' v
  end.

Definition edges : list (nat * nat) :=
  [ (0, 1); (2, 3); (4, 5); (6, 7);
    (0, 2); (1, 3); (4, 6); (5, 7);
    (0, 4); (1, 5); (2, 6); (3, 7) ]%nat.

Section Renderer.

(** OpenCV's image and [cv2.line], and the random generator, are taken
    as given. *)
Variable image : Type.
Variable cv2_line : image -> point -> point -> color -> outcome image.
Variable rng : Type.
Variable randint : Z -> Z -> rng -> Z * rng.

Definition label_position : Type := R * R * text * color.

Record canvas : Type := {
  annotated_image : image;
  all_label_positions : list label_position;
  random_state : rng
}.

(** The body of [for start, end in edges], with its [try ... except:
    continue]. *)
Definition draw_edge (bbox_2d : list pixel) (label : text)
           (box_color : color) (st : canvas) (edge : nat * nat) : canvas :=
  let '(start, end_) := edge in
  match (p1 <- index bbox_2d start ;;
         let pt1 := (py_int (fst p1), py_int (snd p1)) in
         p2 <- index bbox_2d end_ ;;
         let pt2 := (py_int (fst p2), py_int (snd p2)) in
         cv2_line (annotated_image st) pt1 pt2 box_color)%py with
  | Raise _ => st
  | Ret img =>
      let st' := {| annotated_image := img;
                    all_label_positions := all_label_positions st;
                    random_state := random_state st |} in
      if (start =? 0)%nat then
        match index bbox_2d 0 with
        | Ret p0 =>
            {| annotated_image := img;
               all_label_positions :=
                 all_label_positions st
                   ++ [(fst p0, snd p0 - 10, label, box_color)];
               random_state := random_state st |}
        | Raise _ => st'
        end
      else st'
  end.

(** [[random.randint(0, 255) for _ in range(3)]] *)
Definition random_color (g : rng) : color * rng :=
  let '(c0, g) := randint 0 255 g in
  let '(c1, g) := randint 0 255 g in
  let '(c2, g) := randint 0 255 g in
  ((c0, c1, c2), g).

(** The body of [for bbox_data in bbox_3d_list]. *)
Definition draw_box (cam_params : cam_params) (bbox_data : detection)
           (st : canvas) : outcome canvas :=
  let '(bbox_3d, label) :=
    match bbox_data with
    | DDict b (Some l) => (b, l)
    | DDict b None => (b, lit "object")
    | DList b => (b, lit "object")
    end in
  (b6 <- index bbox_3d 6 ;;
   let pitch_rad := deg2rad b6 in
   b7 <- index bbox_3d 7 ;;
   let yaw_rad := deg2rad b7 in
   b8 <- index bbox_3d 8 ;;
   let roll_rad := deg2rad b8 in
   let bbox_3d := list_set bbox_3d 6 pitch_rad in
   let bbox_3d := list_set bbox_3d 7 yaw_rad in
   let bbox_3d := list_set bbox_3d 8 roll_rad in
   bbox_2d <- convert_3dbbox bbox_3d cam_params ;;
   if (8 <=? length bbox_2d)%nat then
     let '(box_color, g) := random_color (random_state st) in
     let st := {| annotated_image := annotated_image st;
                  all_label_positions := all_label_positions st;
                  random_state := g |} in
     Ret (fold_left (draw_edge bbox_2d label box_color) edges st)
   else Ret st)%py.

(** What is returned: the annotated image with the labels to write on
    it, or [None]. *)
Definition figure : Type := image * list label_position.

(** [loaded] is the result of [cv2.imread]; every exception of the loop
    reaches [except Exception] and gives [None]. *)
Definition draw_3dbboxes (loaded : option image) (cam_params : cam_params)
           (bbox_3d_list : list detection) (g : rng) : option figure :=
  match loaded with
  | None => None
  | Some img =>
      match for_each bbox_3d_list (draw_box cam_params)
              {| annotated_image := img;
                 all_label_positions := [];
                 random_state := g |} with
      | Ret st => Some (annotated_image st, all_label_positions st)
      | Raise _ => None
      end
  end.

End Renderer.

(** An instance for concrete runs: the image is the list of the segments
    drawn on it, [cv2.line] adds one, and the generator is a counter. *)
Definition segments : Type := list (point * point * color).

Definition line_on (img : segments) (pt1 pt2 : point) (c : color)
  : outcome segments := Ret (img ++ [(pt1, pt2, c)]).

Definition counter_randint (lo hi : Z) (g : Z) : Z * Z :=
  ((lo + g mod (hi - lo + 1))%Z, (g + 1)%Z).

End Vis3D.

(* ================================================================== *)
(** * modules/visualization_2d.py *)

Module Vis2D.

(** Values found in a detection record: a number, a string, or a flat
    list of numbers.  A number is a binary64 float, which a JSON integer
    below 2^53 converts to exactly. *)
Inductive val : Type :=
| VNum (x : float)
| VStr (s : text)
| VNums (l : list float).

(** An element of [bbox_data]: a dictionary, a list of numbers, or
    anything else. *)
Inductive item : Type :=
| IDict (d : list (text * val))
| IList (l : list float)
| IOther.

(** [d.get(k)] *)
Fixpoint get (d : list (text * val)) (k : text) : option val :=
  match d with
  | [] => None
  | (k', v) :: d' => if Text.eqb k' k then Some v else get d' k
  end.

(** [k in d] *)
Definition mem (k : text) (d : list (text * val)) : bool :=
  match get d k with Some _ => true | None => false end.

(** [d.get(k, default)] *)
Definition get_default (d : list (text * val)) (k : text) (default : val)
  : val :=
  match get d k with Some v => v | None => default end.

(** Truth value of a Python object. *)
Definition truthy (v : val) : bool :=
  match v with
  | VNum x => negb (x =? 0)%float
  | VStr s => match s with [] => false | _ => true end
  | VNums l => match l with [] => false | _ => true end
  end.

Record processed : Type := {
  bbox : val;
  label : val;
  score : val
}.

(** The body of [for item in bbox_data]: the records appended to
    [processed_bboxes]. *)
Definition normalise (it : item) : list processed :=
  match it with
  | IDict d =>
      let bbox_key :=
        if mem (lit "bbox_2d") d then Some (lit "bbox_2d")
        else if mem (lit "bbox") d then Some (lit "bbox")
        else if mem (lit "bounding_box") d then Some (lit "bounding_box")
        else None in
      match bbox_key with
      | Some k =>
          match get d k with
          | Some v =>
              if truthy v then
                [ {| bbox := v;
                     label := get_default d (lit "label") (VStr (lit "unknown"));
                     score := get_default d (lit "score") (VNum 1%float) |} ]
              else []
          | None => []
          end
      | None => []
      end
  | IList l =>
      if (4 <=? length l)%nat then
        [ {| bbox := VNums l;
             label := VStr (lit "object");
             score := VNum 1%float |} ]
      else []
  | IOther => []
  end.

Definition colors : list text :=
  map lit
    [ "#FF0000"; "#00FF00"; "#0000FF"; "#FFFF00"; "#FF00FF"; "#00FFFF";
      "#FFA500"; "#800080"; "#008000"; "#FFC0CB"; "#FFD700"; "#4B0082";
      "#00FF7F"; "#DC143C"; "#8A2BE2"; "#7CFC00"; "#FF4500"; "#DA70D6";
      "#20B2AA"; "#FF69B4"; "#32CD32"; "#BA55D3"; "#9370DB"; "#3CB371"
    ]%string.

(** [int(x)] on a float: truncation towards zero; no integer for a NaN or
    an infinity.  A finite float is [m * 2^e], signed. *)
Definition py_int (x : float) : outcome Z :=
  match Prim2SF x with
  | S754_nan => Raise ValueError
  | S754_infinity _ => Raise OverflowError
  | S754_zero _ => Ret 0%Z
  | S754_finite s m e =>
      let a := Z.shiftl (Zpos m) e in
      Ret (if s then (- a)%Z else a)
  end.

(** The float of an integer, as Python converts the size of the image in
    [float * int]: exact below 2^53. *)
Definition float_of_Z (z : Z) : float :=
  if (z <? 0)%Z then (- of_uint63 (Uint63.of_Z (- z)))%float
  else of_uint63 (Uint63.of_Z z).

(** [len(bbox)] *)
Definition py_len (v : val) : outcome nat :=
  match v with
  | VNum _ => Raise TypeError
  | VStr s => Ret (length s)
  | VNums l => Ret (length l)
  end.

(** [bbox[i]] as a number: an element of a string is a string, which
    neither compares with a number nor divides. *)
Definition number_at (v : val) (i : nat) : outcome float :=
  match v with
  | VNum _ => Raise TypeError
  | VStr s => (_ <- index s i ;; Raise TypeError)%py
  | VNums l => index l i
  end.

(** A rectangle patch: corner, width, height, edge colour. *)
Record rectangle : Type := {
  rect_x : Z; rect_y : Z; rect_width : Z; rect_height : Z;
  rect_color : text
}.

(** The text of a label: with the score when it is below 1. *)
Inductive label_text : Type :=
| LabelScore (label : val) (score : float)
| LabelOnly (label : val).

Record figure : Type := {
  patches : list rectangle;
  texts : list (Z * Z * label_text * text);
  printed : list val        (* the geometries reported as invalid *)
}.

(** [score < 1.0] *)
Definition score_below_one (v : val) : outcome bool :=
  match v with
  | VNum x => Ret (x <? 1)%float
  | _ => Raise TypeError
  end.

(** Lines 114-123: the corners of the rectangle in pixels. *)
Definition pixel_corners (raw_width raw_height : Z) (b0 b1 b2 b3 : float)
  : outcome (Z * Z * Z * Z) :=
  (abs_y1 <- py_int (b1 / 1000 * float_of_Z raw_height)%float ;;
   abs_x1 <- py_int (b0 / 1000 * float_of_Z raw_width)%float ;;
   abs_y2 <- py_int (b3 / 1000 * float_of_Z raw_height)%float ;;
   abs_x2 <- py_int (b2 / 1000 * float_of_Z raw_width)%float ;;
   let '(abs_x1, abs_x2) :=
     if (abs_x1 >? abs_x2)%Z then (abs_x2, abs_x1) else (abs_x1, abs_x2) in
   let '(abs_y1, abs_y2) :=
     if (abs_y1 >? abs_y2)%Z then (abs_y2, abs_y1) else (abs_y1, abs_y2) in
   Ret (abs_x1, abs_y1, abs_x2, abs_y2))%py.

(** The body of [for i, item in enumerate(processed_bboxes)]. *)
Definition draw_item (raw_width raw_height : Z) (i : nat) (it : processed)
           (fig : figure) : outcome figure :=
  let color := nth (i mod length colors) colors [] in
  (n <- py_len (bbox it) ;;
   if (n =? 4)%nat then
     (* the coordinates read here are not used below *)
     b2 <- number_at (bbox it) 2 ;;
     _ <- (if (1 <? b2)%float
           then (b3 <- number_at (bbox it) 3 ;; Ret (1 <? b3)%float)
           else Ret false) ;;
     b1 <- number_at (bbox it) 1 ;;
     b0 <- number_at (bbox it) 0 ;;
     b3 <- number_at (bbox it) 3 ;;
     b2 <- number_at (bbox it) 2 ;;
     corners <- pixel_corners raw_width raw_height b0 b1 b2 b3 ;;
     let '(abs_x1, abs_y1, abs_x2, abs_y2) := corners in
     let width := (abs_x2 - abs_x1)%Z in
     let height := (abs_y2 - abs_y1)%Z in
     let rect := {| rect_x := abs_x1; rect_y := abs_y1;
                    rect_width := width; rect_height := height;
                    rect_color := color |} in
     below <- score_below_one (score it) ;;
     let label_text :=
       match score it, below with
       | VNum s, true => LabelScore (label it) s
       | _, _ => LabelOnly (label it)
       end in
     Ret {| patches := patches fig ++ [rect];
            texts := texts fig
                       ++ [((abs_x1 + 8)%Z, (abs_y1 + 6)%Z, label_text, color)];
            printed := printed fig |}
   else
     Ret {| patches := patches fig;
            texts := texts fig;
            printed := printed fig ++ [bbox it] |})%py.

(** The loop over [enumerate(processed_bboxes)] from index [i]. *)
Fixpoint draw_items (raw_width raw_height : Z) (i : nat)
         (items : list processed) (fig : figure) : outcome figure :=
  match items with
  | [] => Ret fig
  | it :: rest =>
      (fig' <- draw_item raw_width raw_height i it fig ;;
       draw_items raw_width raw_height (S i) rest fig')%py
  end.

(** The result: the figure with the boxes, or the figure that shows the
    error caught by [except Exception]. *)
Inductive rendered : Type :=
| Drawn (fig : figure)
| ErrorFigure (e : exn).

(** [opened] is the size of the image that [Image.open] gave, or the
    exception it raised; [bbox_data] is a list. *)
Definition draw_bboxes_2d (opened : outcome (Z * Z)) (bbox_data : list item)
  : rendered :=
  match opened with
  | Raise e => ErrorFigure e
  | Ret (raw_width, raw_height) =>
      let processed_bboxes := flat_map normalise bbox_data in
      match draw_items raw_width raw_height 0 processed_bboxes
              {| patches := []; texts := []; printed := [] |} with
      | Ret fig => Drawn fig
      | Raise e => ErrorFigure e
      end
  end.

End Vis2D.

(* ================================================================== *)
(** * Definitions that follow the specification's words

    What the properties are stated with, next to the code: the notions the
    specification uses, and the stand-ins for Python's and OpenCV's
    libraries that concrete runs need. *)

Module Spec.

(** The part of [s] before the first occurrence of [sep]; all of [s] when
    there is none. *)
Fixpoint before_first (sep s : text) : text :=
  match s with
  | [] => []
  | c :: s' => if startswith s sep then [] else c :: before_first sep s'
  end.

(** The interior of a fenced block whose opening fence is followed by the
    lines [post]: those lines up to the next fence marker, trimmed. *)
Definition fenced_interior (post : list text) : text :=
  strip (before_first ApiClient.fence (join ApiClient.newline post)).

(** [s] has no leading and no trailing white space. *)
Definition trimmed (s : text) : Prop := strip s = s.

(** No line of [text] opens a json fence, alone on its line or with the
    payload behind it. *)
Definition no_json_fence (text : Text.text) : Prop :=
  forall line, In line (splitlines text) ->
    ApiClient.is_json_fence_line line = false /\
    ApiClient.is_inline_fence_line line = false.

(** [t] does not both begin with [opening] and end with [closing]. *)
Definition not_wrapped (opening closing : char) (t : text) : Prop :=
  startswith t [opening] && endswith t [closing] = false.

(** No [opening] of [t] comes before a later [closing]. *)
Definition no_pair (opening closing : char) (t : text) : Prop :=
  forall i j, (i < j)%nat ->
    nth_error t i = Some opening -> nth_error t j = Some closing -> False.

(** A decoder in the place of [json.loads] for concrete runs: it knows
    the empty array and the empty object and rejects the rest. *)
Definition loads_empty_only (s : text) : outcome (pyval Z) :=
  if Text.eqb s (lit "[]") then Ret (PList [])
  else if Text.eqb s (lit "{}") then Ret (PDict [])
  else Raise JSONDecodeError.

(** The text of an array that holds one integer of 5000 digits:
    ['[' + '1' * 5000 + ']']. *)
Definition long_integer_text : text :=
  ApiClient.open_bracket :: repeat 49%N 5000 ++ [ApiClient.close_bracket].

Definition is_digit (c : char) : bool := (48 <=? c)%N && (c <=? 57)%N.

(** A decoder in the place of [json.loads] with CPython's limit on the
    digits of an integer: [int] raises a plain [ValueError] on more than
    4300 digits and the decoder lets it through, so an array of one such
    integer raises [ValueError], which is not a [JSONDecodeError].  On any
    other string it is [loads_empty_only]. *)
Definition loads_digit_limit (s : text) : outcome (pyval Z) :=
  match s with
  | c :: body =>
      if (c =? ApiClient.open_bracket)%N
         && endswith body [ApiClient.close_bracket]
         && forallb is_digit (removelast body)
         && (4300 <? length body - 1)%nat
      then Raise ValueError
      else loads_empty_only s
  | [] => loads_empty_only s
  end.

Local Open Scope R_scope.

(** The standard rotation of the plane by the angle [theta]. *)
Definition rot2d (theta : R) (p : R * R) : R * R :=
  let '(a, b) := p in
  (a * cos theta - b * sin theta, a * sin theta + b * cos theta).

(** Yaw: about the vertical axis Y, in the plane (z, x). *)
Definition yaw_step (yaw : R) (p : Vis3D.point3) : Vis3D.point3 :=
  let '(x, y, z) := p in
  let '(z', x') := rot2d yaw (z, x) in
  (x', y, z').

(** Pitch: about the lateral axis X, in the plane (y, z). *)
Definition pitch_step (pitch : R) (p : Vis3D.point3) : Vis3D.point3 :=
  let '(x, y, z) := p in
  let '(y', z') := rot2d pitch (y, z) in
  (x, y', z').

(** Roll: about the depth axis Z, in the plane (x, y). *)
Definition roll_step (roll : R) (p : Vis3D.point3) : Vis3D.point3 :=
  let '(x, y, z) := p in
  let '(x', y') := rot2d roll (x, y) in
  (x', y', z).

Definition translate (c p : Vis3D.point3) : Vis3D.point3 :=
  let '(xc, yc, zc) := c in
  let '(x, y, z) := p in
  (x + xc, y + yc, z + zc).

(** Depth of a world point, and its pixel. *)
Definition depth (P : Vis3D.point3) : R := snd P.

Definition in_front (P : Vis3D.point3) : bool :=
  if Rgt_dec (depth P) 0 then true else false.

Definition pixel_of (cam : Vis3D.cam_params) (P : Vis3D.point3)
  : Vis3D.pixel :=
  let '(X, Y, Z) := P in
  (Vis3D.fx cam * (X / Z) + Vis3D.cx cam,
   Vis3D.fy cam * (Y / Z) + Vis3D.cy cam).

(** The eight world corners of a box, in the order of the local corners. *)
Definition world_corners (x y z x_size y_size z_size pitch yaw roll : R)
  : list Vis3D.point3 :=
  map (fun c => translate (x, y, z)
                  (roll_step roll (pitch_step pitch (yaw_step yaw c))))
      (Vis3D.local_corners (x_size / 2) (y_size / 2) (z_size / 2)).

(** A coordinate on the virtual 1000-scale taken to a pixel of an axis
    of the given length: [raw / 1000 * dimension], cut to an integer. *)
Definition scaled_pixel (raw : float) (dimension : Z) : outcome Z :=
  Vis2D.py_int (raw / 1000 * Vis2D.float_of_Z dimension)%float.

(** The geometry of a detection record, whichever shape it came in. *)
Definition geometry (d : Vis3D.detection) : list R :=
  match d with
  | Vis3D.DDict b _ => b
  | Vis3D.DList b => b
  end.

End Spec.

(* ================================================================== *)
(** * modules/camera_utils.py *)

Module CameraUtils.

Local Open Scope R_scope.

Section Generate.

(** Python's [round(x, 2)] is taken as given. *)
Variable round2 : R -> R.

(** [opened] is the size that [Image.open(image_path).size] gave, or the
    exception raised; an argument left at [None] is [None] here.  Every
    exception of the body reaches [except Exception] and gives the default
    parameters.  (Where the tangent is 0 numpy divides to an infinity; the
    real quotient stands for it here.) *)
Definition generate_camera_params (opened : outcome (Z * Z))
           (fx fy cx cy : option R) (fov : R) : Vis3D.cam_params :=
  match opened with
  | Raise _ =>
      {| Vis3D.fx := 1000; Vis3D.fy := 1000; Vis3D.cx := 640; Vis3D.cy := 360 |}
  | Ret (w, h) =>
      let '(fx, fy) :=
        match fx, fy with
        | Some fx, Some fy => (fx, fy)
        | _, _ =>
            let avg_dimension := (IZR w + IZR h) / 2 in
            let focal_length :=
              round2 (avg_dimension / (2 * tan (Vis3D.deg2rad fov / 2))) in
            (focal_length, focal_length)
        end in
      let '(cx, cy) :=
        match cx, cy with
        | Some cx, Some cy => (cx, cy)
        | _, _ => (round2 (IZR w / 2), round2 (IZR h / 2))
        end in
      {| Vis3D.fx := fx; Vis3D.fy := fy; Vis3D.cx := cx; Vis3D.cy := cy |}
  end.

End Generate.

End CameraUtils.

(* ================================================================== *)
(** * Notions used by the further properties *)

Module Props.

(** [t] is white space only. *)
Definition all_space (t : text) : bool := forallb is_space t.

(** Square of the distance between two points. *)
Definition dist2 (p q : Vis3D.point3) : R :=
  let '(px, py, pz) := p in
  let '(qx, qy, qz) := q in
  ((px - qx) * (px - qx) + (py - qy) * (py - qy) + (pz - qz) * (pz - qz))%R.

(** A [cv2.line] that fails on every call. *)
Definition line_fails (img : Vis3D.segments) (pt1 pt2 : Vis3D.point)
           (c : Vis3D.color) : outcome Vis3D.segments := Raise OtherError.

(** A record of nine numbers whose centre is behind the camera by half
    the sum of its extents or more. *)
Definition box_behind (d : Vis3D.detection) : Prop :=
  match Spec.geometry d with
  | [_; _; z; x_size; y_size; z_size; _; _; _] =>
      (Rabs x_size + Rabs y_size + Rabs z_size <= - (2 * z))%R
  | _ => False
  end.

(** The records of [bbox_data] that leave no trace in the figure. *)
Definition ignored_2d (it : Vis2D.item) : Prop :=
  match it with
  | Vis2D.IOther => True
  | Vis2D.IList l => (length l < 4)%nat
  | Vis2D.IDict d =>
      (Vis2D.mem (lit "bbox_2d") d = false
       /\ Vis2D.mem (lit "bbox") d = false
       /\ Vis2D.mem (lit "bounding_box") d = false)
      \/ (exists v, Vis2D.get d (lit "bbox_2d") = Some v
                    /\ Vis2D.truthy v = false)
  end.

End Props.

Unset Implicit Arguments.

(* ================================================================== *)
(** * Facts about the string operations *)

Module TextFacts.

Import Spec.

Lemma eqb_eq (a b : text) : Text.eqb a b = true <-> a = b.
Proof.
  revert b; induction a as [|x a IH]; intros [|y b]; simpl;
    try (split; [discriminate | congruence]); try tauto.
  rewrite andb_true_iff, N.eqb_eq, IH.
  split; [intros [-> ->]; reflexivity | intros H; inversion H; auto].
Qed.

Lemma eqb_refl (a : text) : Text.eqb a a = true.
Proof. apply eqb_eq; reflexivity. Qed.

Lemma startswith_prefix (s p : text) :
  startswith s p = true <-> exists r, s = p ++ r.
Proof.
  revert s; induction p as [|x p IH]; intros s; simpl.
  - split; [exists s; reflexivity | intros _; destruct s; reflexivity].
  - destruct s as [|y s].
    + split; [discriminate | intros [r H]; discriminate].
    + simpl. rewrite andb_true_iff, N.eqb_eq, IH. split.
      * intros [-> [r ->]]. exists r; reflexivity.
      * intros [r H]. inversion H; subst. split; [reflexivity | exists r; reflexivity].
Qed.

Lemma startswith_app (s p r : text) :
  startswith s p = true -> startswith (s ++ r) p = true.
Proof.
  rewrite !startswith_prefix. intros [q ->]. exists (q ++ r).
  now rewrite app_assoc.
Qed.

Lemma contains_cons (sub s : text) (c : char) :
  contains sub s = true -> contains sub (c :: s) = true.
Proof. intros H. simpl. rewrite H. apply orb_true_r. Qed.

Lemma contains_app_l (sub a b : text) :
  contains sub b = true -> contains sub (a ++ b) = true.
Proof.
  induction a as [|c a IH]; intros H; [exact H|].
  simpl app. apply contains_cons, IH, H.
Qed.

Lemma contains_app_r (sub a b : text) :
  contains sub a = true -> contains sub (a ++ b) = true.
Proof.
  induction a as [|c a IH].
  - destruct sub as [|x sub]; simpl.
    + intros _. destruct b; reflexivity.
    + discriminate.
  - intros H. change (contains sub (c :: a)) with
      (startswith (c :: a) sub || contains sub a) in H.
    change (contains sub ((c :: a) ++ b)) with
      (startswith ((c :: a) ++ b) sub || contains sub (a ++ b)).
    apply orb_true_iff in H as [H|H]; apply orb_true_iff.
    + left. now apply startswith_app.
    + right. now apply IH.
Qed.

(** ** [strip] keeps a contiguous part *)

Lemma lstrip_suffix (s : text) : exists pre, s = pre ++ lstrip s.
Proof.
  induction s as [|c s [pre IH]]; simpl.
  - exists []; reflexivity.
  - destruct (is_space c).
    + exists (c :: pre). simpl. now f_equal.
    + exists []; reflexivity.
Qed.

Lemma rstrip_prefix (s : text) : exists post, s = rstrip s ++ post.
Proof.
  unfold rstrip. destruct (lstrip_suffix (rev s)) as [pre H].
  exists (rev pre).
  rewrite <- rev_app_distr, <- H. now rewrite rev_involutive.
Qed.

Lemma strip_middle (s : text) : exists pre post, s = pre ++ strip s ++ post.
Proof.
  destruct (lstrip_suffix s) as [pre H].
  destruct (rstrip_prefix (lstrip s)) as [post H'].
  exists pre, post. unfold strip. now rewrite <- H', <- H.
Qed.

Lemma contains_strip (sub s : text) :
  contains sub (strip s) = true -> contains sub s = true.
Proof.
  intros H. destruct (strip_middle s) as (pre & post & E).
  rewrite E. apply contains_app_l, contains_app_r, H.
Qed.

Lemma startswith_contains (s p : text) :
  startswith s p = true -> contains p s = true.
Proof. intros H. destruct s; simpl in *; rewrite H; reflexivity. Qed.

(** ** [strip] is idempotent *)

Definition no_lead_space (s : text) : Prop :=
  match s with [] => True | c :: _ => is_space c = false end.

Lemma lstrip_no_lead (s : text) : no_lead_space (lstrip s).
Proof.
  induction s as [|c s IH]; simpl; [exact I|].
  destruct (is_space c) eqn:E; [exact IH | exact E].
Qed.

Lemma lstrip_id (s : text) : no_lead_space s -> lstrip s = s.
Proof. destruct s as [|c s]; simpl; [reflexivity | now intros ->]. Qed.

Lemma lstrip_app (a b : text) :
  lstrip (a ++ b) =
  match lstrip a with [] => lstrip b | _ => lstrip a ++ b end.
Proof.
  induction a as [|c a IH]; simpl; [reflexivity|].
  destruct (is_space c); [exact IH | reflexivity].
Qed.

Lemma rstrip_cons (c : char) (s : text) :
  rstrip (c :: s) =
  match rstrip s with
  | [] => if is_space c then [] else [c]
  | _ => c :: rstrip s
  end.
Proof.
  unfold rstrip. simpl rev. rewrite lstrip_app.
  destruct (lstrip (rev s)) as [|d l] eqn:E.
  - simpl. destruct (is_space c); reflexivity.
  - assert (N : rev (d :: l) <> []).
    { intros H. apply (f_equal (@rev _)) in H.
      rewrite rev_involutive in H. discriminate. }
    rewrite rev_app_distr.
    remember (rev (d :: l)) as r eqn:Er. clear Er.
    destruct r; [congruence | reflexivity].
Qed.

Lemma rstrip_no_lead (s : text) : no_lead_space s -> no_lead_space (rstrip s).
Proof.
  destruct s as [|c s]; [intros _; exact I|].
  simpl. intros H. rewrite rstrip_cons.
  destruct (rstrip s); [rewrite H|]; exact H.
Qed.

Lemma rstrip_idem (s : text) : rstrip (rstrip s) = rstrip s.
Proof.
  unfold rstrip. rewrite rev_involutive.
  now rewrite (lstrip_id _ (lstrip_no_lead (rev s))).
Qed.

Lemma strip_idem (s : text) : strip (strip s) = strip s.
Proof.
  unfold strip.
  rewrite (lstrip_id _ (rstrip_no_lead _ (lstrip_no_lead s))).
  apply rstrip_idem.
Qed.

(** ** [split] *)

Lemma split_from_nonempty (sep : text) (s : text) :
  forall k cur, exists a rest, split_from sep k cur s = a :: rest.
Proof.
  induction s as [|c s IH]; intros k cur; cbn [split_from]; [eauto|].
  destruct k; [|apply IH].
  destruct (startswith (c :: s) sep); [eauto | apply IH].
Qed.

Lemma split_from_head (sep : text) (s : text) :
  forall cur, exists rest,
    split_from sep 0 cur s = (rev cur ++ before_first sep s) :: rest.
Proof.
  induction s as [|c s IH]; intros cur.
  - exists []. simpl. now rewrite app_nil_r.
  - cbn [split_from before_first].
    destruct (startswith (c :: s) sep).
    + rewrite app_nil_r. eauto.
    + destruct (IH (c :: cur)) as [rest ->]. exists rest.
      simpl rev. now rewrite <- app_assoc.
Qed.

Lemma split_first (s sep : text) :
  index (split s sep) 0 = Ret (before_first sep s).
Proof.
  unfold split. destruct (split_from_head sep s []) as [rest ->].
  reflexivity.
Qed.

Lemma split_second (s sep : text) :
  sep <> [] -> contains sep s = true ->
  exists part, index (split s sep) 1 = Ret part.
Proof.
  intros Hsep. unfold split. generalize (@nil char) as cur.
  induction s as [|c s IH]; intros cur H.
  - destruct sep; [congruence | discriminate].
  - cbn [split_from].
    change (contains sep (c :: s)) with
      (startswith (c :: s) sep || contains sep s) in H.
    destruct (startswith (c :: s) sep).
    + destruct (split_from_nonempty sep s (length sep - 1) []) as (a & rest & ->).
      exists a. reflexivity.
    + apply IH, H.
Qed.

Lemma before_first_prefix (sep s : text) :
  exists r, s = before_first sep s ++ r.
Proof.
  induction s as [|c s [r IH]].
  - exists []. reflexivity.
  - cbn [before_first]. destruct (startswith (c :: s) sep).
    + exists (c :: s). reflexivity.
    + exists r. simpl. now f_equal.
Qed.

Lemma before_first_clean (sep s : text) :
  sep <> [] -> contains sep (before_first sep s) = false.
Proof.
  intros Hsep. induction s as [|c s IH].
  - destruct sep; [congruence | reflexivity].
  - cbn [before_first]. destruct (startswith (c :: s) sep) eqn:E.
    + destruct sep; [congruence | reflexivity].
    + change (startswith (c :: before_first sep s) sep
              || contains sep (before_first sep s) = false).
      rewrite IH, orb_false_r.
      destruct (startswith (c :: before_first sep s) sep) eqn:E'; [|reflexivity].
      destruct (before_first_prefix sep s) as [r Hr].
      apply (startswith_app _ _ r) in E'.
      simpl app in E'. rewrite <- Hr in E'. congruence.
Qed.

(** ** [find] and [rfind] *)

Lemma find_from_found (s : text) (c : char) :
  forall i, (0 <= i)%Z -> find_from i s c <> (-1)%Z ->
  exists n, find_from i s c = (i + Z.of_nat n)%Z /\ nth_error s n = Some c.
Proof.
  induction s as [|x s IH]; intros i Hi H; simpl in *; [congruence|].
  destruct (N.eqb_spec x c) as [->|Hx].
  - exists 0%nat. split; [lia | reflexivity].
  - destruct (IH (i + 1)%Z ltac:(lia) H) as (n & E & Hn).
    exists (S n). split; [lia | exact Hn].
Qed.

Lemma rfind_from_found (s : text) (c : char) :
  forall i best,
    rfind_from i best s c = best \/
    exists n, rfind_from i best s c = (i + Z.of_nat n)%Z
              /\ nth_error s n = Some c.
Proof.
  induction s as [|x s IH]; intros i best; simpl; [now left|].
  destruct (N.eqb_spec x c) as [->|Hx].
  - destruct (IH (i + 1)%Z i) as [E | (n & E & Hn)].
    + right. exists 0%nat. split; [lia | reflexivity].
    + right. exists (S n). split; [lia | exact Hn].
  - destruct (IH (i + 1)%Z best) as [E | (n & E & Hn)].
    + now left.
    + right. exists (S n). split; [lia | exact Hn].
Qed.

Lemma no_pair_indices (opening closing : char) (t : text) :
  no_pair opening closing t ->
  negb (find t opening =? -1)%Z && negb (rfind t closing =? -1)%Z
  && (rfind t closing >? find t opening)%Z = false.
Proof.
  intros Hno.
  destruct (Z.eqb_spec (find t opening) (-1)) as [|Hf]; [reflexivity|].
  destruct (Z.eqb_spec (rfind t closing) (-1)) as [|Hr]; [reflexivity|].
  simpl. rewrite Z.gtb_ltb. apply Z.ltb_ge.
  destruct (find_from_found t opening 0 ltac:(lia) Hf) as (i & Ei & Hi).
  destruct (rfind_from_found t closing 0 (-1)) as [E | (j & Ej & Hj)];
    [unfold rfind in Hr; congruence|].
  unfold find, rfind in *. rewrite Ei, Ej.
  destruct (Nat.lt_ge_cases i j) as [Hlt | Hge]; [|lia].
  exfalso. exact (Hno i j Hlt Hi Hj).
Qed.

Lemma no_pair_absent (opening closing : char) (t : text) :
  ~ In opening t -> no_pair opening closing t.
Proof. intros H i j _ Hi _. apply H. eapply nth_error_In, Hi. Qed.

End TextFacts.

(* ================================================================== *)
(** * The response extractor *)

Module ApiClientSpec.

Import Spec TextFacts ApiClient.

Lemma fence_nonempty : fence <> [].
Proof. discriminate. Qed.

(** A line that is the json fence alone also passes the second test of
    the loop; the first test is tried first. *)
Lemma json_fence_is_inline (line : text) :
  is_json_fence_line line = true -> is_inline_fence_line line = true.
Proof.
  unfold is_json_fence_line, is_inline_fence_line.
  intros H. apply eqb_eq in H. rewrite H. reflexivity.
Qed.

Lemma inline_fence_has_fence (line : text) :
  is_inline_fence_line line = true -> contains fence line = true.
Proof.
  unfold is_inline_fence_line. intros H.
  apply andb_true_iff in H as [H _].
  apply contains_strip, startswith_contains, H.
Qed.

Lemma scan_lines_skip (pre rest : list text) :
  (forall l, In l pre -> is_inline_fence_line l = false) ->
  scan_lines (pre ++ rest) = scan_lines rest.
Proof.
  induction pre as [|l pre IH]; intros H; [reflexivity|].
  simpl app. cbn [scan_lines].
  assert (Hl : is_inline_fence_line l = false) by (apply H; now left).
  destruct (is_json_fence_line l) eqn:E.
  - apply json_fence_is_inline in E. congruence.
  - rewrite Hl. apply IH. intros l' Hl'. apply H. now right.
Qed.

Lemma scan_lines_none (lines : list text) :
  (forall l, In l lines -> is_inline_fence_line l = false) ->
  scan_lines lines = None.
Proof.
  intros H. rewrite <- (app_nil_r lines). now rewrite scan_lines_skip.
Qed.

Lemma scan_lines_returns (lines : list text) (r : outcome text) :
  scan_lines lines = Some r -> exists s, r = Ret s.
Proof.
  induction lines as [|line rest IH]; [discriminate|].
  cbn [scan_lines].
  destruct (is_json_fence_line line).
  - intros [= <-]. rewrite split_first. cbn [bind]. eauto.
  - destruct (is_inline_fence_line line) eqn:E; [|exact IH].
    intros [= <-].
    destruct (split_second line fence fence_nonempty
                (inline_fence_has_fence line E)) as [part ->].
    cbn [bind]. rewrite split_first. cbn [bind]. eauto.
Qed.

(** [parse_json_response] raises on no text: the index [1] it takes is
    always there. *)
Lemma parse_json_response_total (text : Text.text) :
  exists s, parse_json_response text = Ret s.
Proof.
  unfold parse_json_response. destruct text as [|c text]; [eauto|].
  destruct (scan_lines (splitlines (c :: text))) as [r|] eqn:E; [|eauto].
  exact (scan_lines_returns _ r E).
Qed.

(** C3. The detection parsers do raise.  Their [except] clause names
    [JSONDecodeError], [IndexError] and [KeyError] only: when [json.loads]
    raises any other exception on the extracted string, both parsers raise
    it to the caller, return no list and print nothing.  CPython's decoder
    does so with a plain [ValueError] on an integer of more than 4300
    digits (and with [RecursionError] on deeply nested brackets), so the
    text ['[' + '1' * 5000 + ']'] makes both parsers raise. *)
Theorem uncaught_decoder_error_escapes :
  forall (num : Type) (json_loads : text -> outcome (pyval num))
         (text s : Text.text) (e : exn),
    parse_json_response text = Ret s -> s <> [] ->
    json_loads s = Raise e ->
    e <> JSONDecodeError -> e <> IndexError -> e <> KeyError ->
    parse_bbox_3d_from_text json_loads text = (Raise e, [])
    /\ parse_bbox_2d_from_text json_loads text = (Raise e, []).
Proof.
  intros num json_loads text s e Hs Hne He H1 H2 H3.
  unfold parse_bbox_3d_from_text, parse_bbox_2d_from_text.
  rewrite Hs. cbn [bind]. destruct s as [|c s]; [congruence|].
  rewrite He. cbn [bind try_except].
  destruct e; try congruence; split; reflexivity.
Qed.

Lemma uncaught_decoder_error_escapes_witness :
  parse_bbox_3d_from_text loads_digit_limit long_integer_text
  = (Raise ValueError, [])
  /\ parse_bbox_2d_from_text loads_digit_limit long_integer_text
     = (Raise ValueError, []).
Proof.
  apply (uncaught_decoder_error_escapes Z loads_digit_limit
           long_integer_text long_integer_text ValueError).
  - vm_compute. reflexivity.
  - discriminate.
  - vm_compute. reflexivity.
  - discriminate.
  - discriminate.
  - discriminate.
Defined.

(** What holds of the parsers under a decoder that raises nothing but
    [JSONDecodeError]: they return a list on every text, the empty list
    when nothing was extracted, when the extracted string does not decode,
    or when it decodes to something that is neither a list nor a
    dictionary; the one-element list of a decoded dictionary; a decoded
    list as it is. *)
Theorem parse_detections_tolerant :
  forall (num : Type) (json_loads : text -> outcome (pyval num)),
    (forall s e, json_loads s = Raise e -> e = JSONDecodeError) ->
    forall text : Text.text,
    exists (s : Text.text) (l : list (pyval num)),
      parse_json_response text = Ret s /\
      fst (parse_bbox_3d_from_text json_loads text) = Ret l /\
      fst (parse_bbox_2d_from_text json_loads text) = Ret l /\
      l = match s with
          | [] => []
          | _ :: _ =>
              match json_loads s with
              | Ret (PList a) => a
              | Ret (PDict d) => [PDict d]
              | Ret _ => []
              | Raise _ => []
              end
          end.
Proof.
  intros num json_loads Hloads text.
  destruct (parse_json_response_total text) as [s Hs].
  exists s.
  unfold parse_bbox_3d_from_text, parse_bbox_2d_from_text.
  rewrite Hs. cbn [bind].
  destruct s as [|c s].
  - exists []. repeat split; reflexivity.
  - destruct (json_loads (c :: s)) as [v|e] eqn:E.
    + cbn [bind]. destruct v; eexists; repeat split; reflexivity.
    + apply Hloads in E. subst e. exists []. repeat split; reflexivity.
Qed.

Lemma parse_detections_tolerant_witness :
  exists (s : Text.text) (l : list (pyval Z)),
    parse_json_response (lit "```json
{}
```") = Ret s /\
    fst (parse_bbox_3d_from_text loads_empty_only (lit "```json
{}
```")) = Ret l /\
    fst (parse_bbox_2d_from_text loads_empty_only (lit "```json
{}
```")) = Ret l /\
    l = match s with
        | [] => []
        | _ :: _ =>
            match loads_empty_only s with
            | Ret (PList a) => a
            | Ret (PDict d) => [PDict d]
            | Ret _ => []
            | Raise _ => []
            end
        end.
Proof.
  apply (parse_detections_tolerant Z loads_empty_only).
  intros s e. unfold loads_empty_only.
  destruct (Text.eqb s (lit "[]")); [discriminate|].
  destruct (Text.eqb s (lit "{}")); [discriminate|].
  intros [= <-]. reflexivity.
Defined.

(** C10. On every text the 2D parser and the 3D parser return the same
    value, whatever [json.loads] does; only the line they print on a
    failure differs. *)
Theorem parsers_2d_3d_agree :
  forall (num : Type) (json_loads : text -> outcome (pyval num))
         (text : Text.text),
    fst (parse_bbox_2d_from_text json_loads text)
    = fst (parse_bbox_3d_from_text json_loads text).
Proof.
  intros num json_loads text.
  unfold parse_bbox_2d_from_text, parse_bbox_3d_from_text, try_except.
  destruct (parse_json_response text) as [s|e]; cbn [bind].
  - destruct s as [|c s]; [reflexivity|].
    destruct (json_loads (c :: s)) as [v|e]; cbn [bind].
    + destruct v; reflexivity.
    + destruct (existsb _ _); reflexivity.
  - destruct (existsb _ _); reflexivity.
Qed.

(** The printed lines do differ. *)
Lemma parsers_2d_3d_logs_differ :
  snd (parse_bbox_2d_from_text loads_empty_only (lit "oops"))
  <> snd (parse_bbox_3d_from_text loads_empty_only (lit "oops")).
Proof. vm_compute. discriminate. Qed.

(** C4 as stated fails: a line that only begins with the fence and the
    word json, met before the line that is the json fence alone, is what
    the loop returns from. *)
Lemma fenced_block_counterexample :
  let text := lit "```json extra
```
```json
[1]
```" in
  exists pre post,
    splitlines text = pre ++ fence_json :: post /\
    (forall l, In l pre -> is_json_fence_line l = false) /\
    fenced_interior post = lit "[1]" /\
    parse_json_response text = Ret (lit "extra") /\
    parse_json_response text <> Ret (fenced_interior post).
Proof.
  exists [lit "```json extra"; lit "```"], [lit "[1]"; lit "```"].
  split; [reflexivity|]. split.
  - intros l [<-|[<-|[]]]; reflexivity.
  - split; [reflexivity|]. split; [reflexivity|].
    vm_compute. discriminate.
Qed.

(** C4, amended. When the first line of the text that begins with the
    fence marker and holds the word json is the json fence alone,
    [parse_json_response] returns the lines after it, joined by line
    feeds, up to the next fence marker, trimmed; the result holds no
    fence marker, whatever follows in the text. *)
Theorem fenced_block_extracted :
  forall (text : Text.text) (pre : list Text.text) (line : Text.text)
         (post : list Text.text),
    splitlines text = pre ++ line :: post ->
    is_json_fence_line line = true ->
    (forall l, In l pre -> is_inline_fence_line l = false) ->
    parse_json_response text = Ret (fenced_interior post)
    /\ contains fence (fenced_interior post) = false
    /\ trimmed (fenced_interior post).
Proof.
  intros text pre line post Hlines Hline Hpre. split; [|split].
  - unfold parse_json_response.
    destruct text as [|c text]; [destruct pre; discriminate|].
    rewrite Hlines, (scan_lines_skip pre _ Hpre).
    cbn [scan_lines]. rewrite Hline, split_first. reflexivity.
  - unfold fenced_interior.
    destruct (contains fence (strip _)) eqn:E; [|reflexivity].
    apply contains_strip in E.
    now rewrite (before_first_clean fence _ fence_nonempty) in E.
  - apply strip_idem.
Qed.

Lemma fenced_block_extracted_witness :
  parse_json_response (lit "Here it is:
```json
[1]
```
and more ```x``` after") = Ret (fenced_interior [lit "[1]"; lit "```";
                                  lit "and more ```x``` after"])
  /\ contains fence (fenced_interior [lit "[1]"; lit "```";
                       lit "and more ```x``` after"]) = false
  /\ trimmed (fenced_interior [lit "[1]"; lit "```";
                lit "and more ```x``` after"]).
Proof.
  apply (fenced_block_extracted _ [lit "Here it is:"] (lit "```json")).
  - reflexivity.
  - reflexivity.
  - intros l [<-|[]]. reflexivity.
Defined.

(** C5 as stated fails: with nothing that looks like JSON the trimmed
    text comes back, not the empty string. *)
Lemma no_json_counterexample :
  let text := lit "hello" in
  text <> [] /\
  no_json_fence text /\
  not_wrapped open_bracket close_bracket (strip text) /\
  not_wrapped open_brace close_brace (strip text) /\
  no_pair open_bracket close_bracket (strip text) /\
  no_pair open_brace close_brace (strip text) /\
  parse_json_response text = Ret (lit "hello") /\
  parse_json_response text <> Ret [].
Proof.
  cbv zeta. split; [discriminate|]. split.
  { intros line [<-|[]]. split; reflexivity. }
  split; [reflexivity|]. split; [reflexivity|].
  split; [|split; [|split; [reflexivity | discriminate]]];
    apply no_pair_absent; vm_compute; intuition discriminate.
Qed.

(** C5, amended. For a non-empty text with no json fence, whose trimmed
    form is not wrapped in matching brackets and has no [[] before a
    later []] and no [{] before a later [}], [parse_json_response]
    returns the trimmed text. *)
Theorem no_json_returns_trimmed_text :
  forall text : Text.text,
    text <> [] ->
    no_json_fence text ->
    not_wrapped open_bracket close_bracket (strip text) ->
    not_wrapped open_brace close_brace (strip text) ->
    no_pair open_bracket close_bracket (strip text) ->
    no_pair open_brace close_brace (strip text) ->
    parse_json_response text = Ret (strip text).
Proof.
  intros text Hne Hfence Hw1 Hw2 Hp1 Hp2.
  unfold parse_json_response.
  destruct text as [|c text]; [congruence|].
  rewrite scan_lines_none by (intros l Hl; apply Hfence, Hl).
  unfold bare_json. unfold not_wrapped in Hw1, Hw2.
  rewrite Hw1, Hw2.
  rewrite (no_pair_indices _ _ _ Hp1), (no_pair_indices _ _ _ Hp2).
  reflexivity.
Qed.

Lemma no_json_returns_trimmed_text_witness :
  parse_json_response (lit "  no boxes here ")
  = Ret (strip (lit "  no boxes here ")).
Proof.
  apply no_json_returns_trimmed_text.
  - discriminate.
  - intros line [<-|[]]. split; reflexivity.
  - reflexivity.
  - reflexivity.
  - apply no_pair_absent; vm_compute; intuition discriminate.
  - apply no_pair_absent; vm_compute; intuition discriminate.
Defined.

End ApiClientSpec.

(* ================================================================== *)
(** * The projector *)

Module Vis3DSpec.

Import Spec Vis3D.
Local Open Scope R_scope.

Lemma Ret_inj {A : Type} (a b : A) : Ret a = Ret b -> a = b.
Proof. intros H. now injection H. Qed.

Lemma in_front_iff (P : point3) : in_front P = true <-> depth P > 0.
Proof.
  unfold in_front. destruct (Rgt_dec (depth P) 0); split; auto; discriminate.
Qed.

(** One turn of the loop: the pixel is appended when the point is in
    front of the camera, and the division never raises. *)
Lemma project_append_spec (cam : cam_params) (P : point3) (acc : list pixel) :
  project_append cam P acc
  = Ret (if in_front P then acc ++ [pixel_of cam P] else acc).
Proof.
  destruct P as [[X Y] Z]. unfold project_append, in_front, depth, py_div.
  cbn [snd]. destruct (Rgt_dec Z 0) as [H|H]; [|reflexivity].
  destruct (Req_dec_T Z 0) as [E|E]; [lra|]. reflexivity.
Qed.

Lemma convert_loop (cam : cam_params) (W : point3 -> point3)
      (cs : list point3) :
  forall acc,
    for_each cs (fun corner img_corners =>
                   project_append cam (W corner) img_corners) acc
    = Ret (acc ++ map (pixel_of cam) (filter in_front (map W cs))).
Proof.
  induction cs as [|c cs IH]; intros acc; cbn [for_each map filter].
  - now rewrite app_nil_r.
  - rewrite project_append_spec. cbn [bind]. rewrite IH.
    destruct (in_front (W c)); [|reflexivity].
    cbn [map]. now rewrite <- app_assoc.
Qed.

Lemma convert_3dbbox_spec (cam : cam_params)
      (x y z x_size y_size z_size pitch yaw roll : R) :
  convert_3dbbox [x; y; z; x_size; y_size; z_size; pitch; yaw; roll] cam
  = Ret (map (pixel_of cam)
           (filter in_front
              (map (world_corner x y z (cos roll) (sin roll) (cos pitch)
                                 (sin pitch) (cos yaw) (sin yaw))
                   (local_corners (x_size / 2) (y_size / 2) (z_size / 2))))).
Proof. unfold convert_3dbbox. now rewrite convert_loop. Qed.

Lemma world_corner_composition (x y z pitch yaw roll : R) (corner : point3) :
  world_corner x y z (cos roll) (sin roll) (cos pitch) (sin pitch)
               (cos yaw) (sin yaw) corner
  = translate (x, y, z)
      (roll_step roll (pitch_step pitch (yaw_step yaw corner))).
Proof.
  destruct corner as [[x0 y0] z0].
  cbv beta iota zeta
      delta [world_corner translate roll_step pitch_step yaw_step rot2d].
  apply f_equal2; [apply f_equal2|]; ring.
Qed.

(** C1. Every local corner is taken to the world by the yaw rotation about
    Y, then the pitch rotation about X, then the roll rotation about Z,
    each a rotation of the plane applied to the result of the one before,
    and then the translation by the centre; the pixels returned by
    [convert_3dbbox] are those of the corners so moved that lie in front
    of the camera. *)
Theorem rotation_yaw_pitch_roll_then_translate :
  forall (x y z pitch yaw roll : R),
    (forall corner : point3,
        world_corner x y z (cos roll) (sin roll) (cos pitch) (sin pitch)
                     (cos yaw) (sin yaw) corner
        = translate (x, y, z)
            (roll_step roll (pitch_step pitch (yaw_step yaw corner))))
    /\
    (forall (cam : cam_params) (x_size y_size z_size : R),
        convert_3dbbox [x; y; z; x_size; y_size; z_size; pitch; yaw; roll] cam
        = Ret (map (pixel_of cam)
                 (filter in_front
                    (world_corners x y z x_size y_size z_size
                                   pitch yaw roll)))).
Proof.
  intros x y z pitch yaw roll. split.
  - apply world_corner_composition.
  - intros cam x_size y_size z_size.
    rewrite convert_3dbbox_spec. unfold world_corners.
    do 3 f_equal. apply map_ext. intros c. apply world_corner_composition.
Qed.

(** The order matters: yaw then pitch is not pitch then yaw. *)
Lemma yaw_pitch_do_not_commute :
  pitch_step (PI / 2) (yaw_step (PI / 2) (1, 0, 0))
  <> yaw_step (PI / 2) (pitch_step (PI / 2) (1, 0, 0)).
Proof.
  unfold pitch_step, yaw_step, rot2d. rewrite cos_PI2, sin_PI2.
  intros H. injection H as _ H _. lra.
Qed.

(** C2. A corner gives a pixel exactly when its depth after the rotations
    and the translation is positive; the pixel is
    [(fx * (X / Z) + cx, fy * (Y / Z) + cy)]; a corner of depth at most 0
    is dropped without a division, so [convert_3dbbox] returns at most 8
    pixels and never raises on a division. *)
Theorem projection_keeps_front_corners :
  forall (cam : cam_params) (x y z x_size y_size z_size pitch yaw roll : R),
    convert_3dbbox [x; y; z; x_size; y_size; z_size; pitch; yaw; roll] cam
    = Ret (map (pixel_of cam)
             (filter in_front
                (map (world_corner x y z (cos roll) (sin roll) (cos pitch)
                                   (sin pitch) (cos yaw) (sin yaw))
                     (local_corners (x_size / 2) (y_size / 2) (z_size / 2)))))
    /\ (forall P : point3, in_front P = true <-> depth P > 0)
    /\ (forall (X Y Z : R) (img_corners : list pixel),
           Z > 0 ->
           project_append cam (X, Y, Z) img_corners
           = Ret (img_corners ++ [(fx cam * (X / Z) + cx cam,
                                   fy cam * (Y / Z) + cy cam)]))
    /\ (forall (X Y Z : R) (img_corners : list pixel),
           Z <= 0 ->
           project_append cam (X, Y, Z) img_corners = Ret img_corners)
    /\ (forall pixels,
           convert_3dbbox
             [x; y; z; x_size; y_size; z_size; pitch; yaw; roll] cam
           = Ret pixels ->
           (length pixels <= 8)%nat).
Proof.
  intros cam x y z x_size y_size z_size pitch yaw roll.
  split; [apply convert_3dbbox_spec|].
  split; [apply in_front_iff|].
  split; [|split].
  - intros X Y Z acc HZ. rewrite project_append_spec.
    unfold in_front, depth. cbn [snd].
    destruct (Rgt_dec Z 0); [reflexivity | contradiction].
  - intros X Y Z acc HZ. rewrite project_append_spec.
    unfold in_front, depth. cbn [snd].
    destruct (Rgt_dec Z 0); [lra | reflexivity].
  - intros pixels. rewrite convert_3dbbox_spec. intros H.
    apply Ret_inj in H. rewrite <- H. rewrite length_map.
    etransitivity; [apply filter_length_le|].
    rewrite length_map. apply Nat.le_refl.
Qed.

Lemma projection_keeps_front_corners_witness :
  project_append {| fx := 1000; fy := 1000; cx := 500; cy := 500 |}
                 (1, 1, 10) []
  = Ret ([] ++ [(1000 * (1 / 10) + 500, 1000 * (1 / 10) + 500)]).
Proof.
  apply (projection_keeps_front_corners
           {| fx := 1000; fy := 1000; cx := 500; cy := 500 |}
           0 0 10 2 2 2 0 0 0).
  lra.
Defined.

(** ** The box of the boundary example *)

Lemma in_front_true (P : point3) : depth P > 0 -> in_front P = true.
Proof. apply in_front_iff. Qed.

Lemma in_front_false (P : point3) : depth P <= 0 -> in_front P = false.
Proof.
  intros H. destruct (in_front P) eqn:E; [|reflexivity].
  apply in_front_iff in E. lra.
Qed.

Ltac point_eq := apply f_equal2; [apply f_equal2|]; try field.
Ltac points_eq := repeat (apply f_equal2; [point_eq|]); try reflexivity.
Ltac pixel_eq := apply f_equal2; try field.
Ltac pixels_eq := repeat (apply f_equal2; [pixel_eq|]); try reflexivity.

Lemma origin_box_world :
  map (world_corner 0 0 0 (cos 0) (sin 0) (cos 0) (sin 0) (cos 0) (sin 0))
      (local_corners (2 / 2) (2 / 2) (2 / 2))
  = [ (1, 1, 1); (1, 1, -1); (1, -1, 1); (1, -1, -1);
      (-1, 1, 1); (-1, 1, -1); (-1, -1, 1); (-1, -1, -1) ].
Proof.
  rewrite cos_0, sin_0.
  cbv beta iota zeta delta [map local_corners world_corner].
  points_eq.
Qed.

Lemma origin_box_front :
  filter in_front
         [ (1, 1, 1); (1, 1, -1); (1, -1, 1); (1, -1, -1);
           (-1, 1, 1); (-1, 1, -1); (-1, -1, 1); (-1, -1, -1) ]
  = [ (1, 1, 1); (1, -1, 1); (-1, 1, 1); (-1, -1, 1) ].
Proof.
  cbn [filter].
  rewrite (in_front_true (1, 1, 1)) by (cbn; lra).
  rewrite (in_front_false (1, 1, -1)) by (cbn; lra).
  rewrite (in_front_true (1, -1, 1)) by (cbn; lra).
  rewrite (in_front_false (1, -1, -1)) by (cbn; lra).
  rewrite (in_front_true (-1, 1, 1)) by (cbn; lra).
  rewrite (in_front_false (-1, 1, -1)) by (cbn; lra).
  rewrite (in_front_true (-1, -1, 1)) by (cbn; lra).
  rewrite (in_front_false (-1, -1, -1)) by (cbn; lra).
  reflexivity.
Qed.

Lemma origin_box_pixels :
  convert_3dbbox [0; 0; 0; 2; 2; 2; 0; 0; 0]
                 {| fx := 1000; fy := 1000; cx := 0; cy := 0 |}
  = Ret [ (1000, 1000); (1000, -1000); (-1000, 1000); (-1000, -1000) ].
Proof.
  rewrite convert_3dbbox_spec, origin_box_world, origin_box_front.
  f_equal. cbv beta iota zeta delta [map pixel_of fx fy cx cy].
  pixels_eq.
Qed.

(** C9 as stated fails: the box centred at the origin with sides 2 has
    its four corners of local depth +1 in front of the camera, and they
    are projected. *)
Lemma origin_box_counterexample :
  map depth
      (map (world_corner 0 0 0 (cos 0) (sin 0) (cos 0) (sin 0)
                         (cos 0) (sin 0))
           (local_corners (2 / 2) (2 / 2) (2 / 2)))
  <> [0; 0; 0; 0; 0; 0; 0; 0]
  /\ convert_3dbbox [0; 0; 0; 2; 2; 2; 0; 0; 0]
                    {| fx := 1000; fy := 1000; cx := 0; cy := 0 |}
     <> Ret [].
Proof.
  split.
  - rewrite origin_box_world. cbn [map depth snd].
    intros H. injection H as H _. lra.
  - rewrite origin_box_pixels. discriminate.
Qed.

(** C9, amended. For the box (0,0,0, 2,2,2, 0,0,0) and the camera
    fx = fy = 1000, cx = cy = 0 the corners have depth +1 and -1 in turn;
    the four of depth +1 are projected, to (1000,1000), (1000,-1000),
    (-1000,1000) and (-1000,-1000), and the four of depth -1 are dropped;
    a point of depth 0 is not projected. *)
Theorem origin_box_projects_front_corners :
  map depth
      (map (world_corner 0 0 0 (cos 0) (sin 0) (cos 0) (sin 0)
                         (cos 0) (sin 0))
           (local_corners (2 / 2) (2 / 2) (2 / 2)))
  = [1; -1; 1; -1; 1; -1; 1; -1]
  /\ convert_3dbbox [0; 0; 0; 2; 2; 2; 0; 0; 0]
                    {| fx := 1000; fy := 1000; cx := 0; cy := 0 |}
     = Ret [ (1000, 1000); (1000, -1000); (-1000, 1000); (-1000, -1000) ]
  /\ (forall (cam : cam_params) (X Y : R) (img_corners : list pixel),
         project_append cam (X, Y, 0) img_corners = Ret img_corners).
Proof.
  split; [|split].
  - rewrite origin_box_world. reflexivity.
  - apply origin_box_pixels.
  - intros cam X Y acc. rewrite project_append_spec.
    rewrite in_front_false by (cbn; lra). reflexivity.
Qed.

End Vis3DSpec.

(* ================================================================== *)
(** * The 3D renderer *)

Module Render3DSpec.

Import Spec Vis3D Vis3DSpec.
Local Open Scope R_scope.

Lemma for_each_app {A S : Type} (body : A -> S -> outcome S)
      (a b : list A) (s : S) :
  for_each (a ++ b) body s = bind (for_each a body s) (for_each b body).
Proof.
  revert s. induction a as [|x a IH]; intros s; [reflexivity|].
  cbn [app for_each]. destruct (body x s) as [s'|e]; [apply IH | reflexivity].
Qed.

Section Renderer.

Variables image rng : Type.
Variable cv2_line : image -> point -> point -> color -> outcome image.
Variable randint : Z -> Z -> rng -> Z * rng.

(** With nine numbers the angles are there to be converted, and what
    the box does to the canvas hangs on the number of pixels. *)
Lemma draw_box_nine (cam : cam_params) (bbox_data : detection)
      (x y z x_size y_size z_size pitch yaw roll : R)
      (st : canvas image rng) :
  geometry bbox_data = [x; y; z; x_size; y_size; z_size; pitch; yaw; roll] ->
  exists label,
    draw_box cv2_line randint cam bbox_data st
    = bind (convert_3dbbox
              [x; y; z; x_size; y_size; z_size;
               deg2rad pitch; deg2rad yaw; deg2rad roll] cam)
           (fun bbox_2d =>
              if (8 <=? length bbox_2d)%nat then
                let '(box_color, g) :=
                  random_color randint (random_state st) in
                Ret (fold_left (draw_edge cv2_line bbox_2d label box_color)
                       edges
                       {| annotated_image := annotated_image st;
                          all_label_positions := all_label_positions st;
                          random_state := g |})
              else Ret st).
Proof.
  intros H. destruct bbox_data as [b [l|]|b]; cbn [geometry] in H; subst b;
    eexists; reflexivity.
Qed.

Lemma draw_box_short (cam : cam_params) (bbox_data : detection)
      (x y z x_size y_size z_size pitch yaw roll : R) (pts : list pixel)
      (st : canvas image rng) :
  geometry bbox_data = [x; y; z; x_size; y_size; z_size; pitch; yaw; roll] ->
  convert_3dbbox [x; y; z; x_size; y_size; z_size;
                  deg2rad pitch; deg2rad yaw; deg2rad roll] cam = Ret pts ->
  (length pts < 8)%nat ->
  draw_box cv2_line randint cam bbox_data st = Ret st.
Proof.
  intros Hg Hc Hlen.
  destruct (draw_box_nine cam bbox_data _ _ _ _ _ _ _ _ _ st Hg) as [l ->].
  rewrite Hc. cbn [bind].
  destruct (Nat.leb_spec 8 (length pts)); [lia | reflexivity].
Qed.

Lemma draw_box_wrong_arity (cam : cam_params) (bbox_data : detection)
      (st : canvas image rng) :
  length (geometry bbox_data) <> 9%nat ->
  exists e, draw_box cv2_line randint cam bbox_data st = Raise e.
Proof.
  intros H.
  assert (G : forall b label,
             length b <> 9%nat ->
             exists e,
               (b6 <- index b 6 ;;
                b7 <- index b 7 ;;
                b8 <- index b 8 ;;
                bbox_2d <- convert_3dbbox
                             (list_set
                                (list_set (list_set b 6 (deg2rad b6))
                                          7 (deg2rad b7))
                                8 (deg2rad b8)) cam ;;
                if (8 <=? length bbox_2d)%nat then
                  let '(box_color, g) :=
                    random_color randint (random_state st) in
                  Ret (fold_left
                         (draw_edge cv2_line bbox_2d label box_color) edges
                         {| annotated_image := annotated_image st;
                            all_label_positions := all_label_positions st;
                            random_state := g |})
                else Ret st)%py = Raise e).
  { intros b label Hb.
    destruct b as [|a0 [|a1 [|a2 [|a3 [|a4 [|a5 [|a6 [|a7 [|a8 [|a9 b]]]]]]]]]];
      try (eexists; reflexivity).
    cbn [length] in Hb. congruence. }
  destruct bbox_data as [b [l|]|b]; cbn [geometry] in H;
    eapply G; exact H.
Qed.

(** C6, amended. A record of nine numbers whose projection has fewer
    than 8 pixels leaves the canvas as it was: no edge is drawn for it,
    no label is placed, and the render goes on with the other records
    and returns what it returns without that record. *)
Theorem undersized_projection_skips_box :
  forall (loaded : option image) (cam : cam_params)
         (pre post : list detection) (bbox_data : detection) (g : rng)
         (x y z x_size y_size z_size pitch yaw roll : R)
         (pts : list pixel),
    geometry bbox_data
    = [x; y; z; x_size; y_size; z_size; pitch; yaw; roll] ->
    convert_3dbbox [x; y; z; x_size; y_size; z_size;
                    deg2rad pitch; deg2rad yaw; deg2rad roll] cam
    = Ret pts ->
    (length pts < 8)%nat ->
    (forall st, draw_box cv2_line randint cam bbox_data st = Ret st)
    /\ draw_3dbboxes cv2_line randint loaded cam (pre ++ bbox_data :: post) g
       = draw_3dbboxes cv2_line randint loaded cam (pre ++ post) g.
Proof.
  intros loaded cam pre post bbox_data g x y z sx sy sz p yw r pts
         Hg Hc Hlen.
  assert (Hskip : forall st, draw_box cv2_line randint cam bbox_data st = Ret st).
  { intros st. eapply draw_box_short; eassumption. }
  split; [exact Hskip|].
  unfold Vis3D.draw_3dbboxes. destruct loaded as [img|]; [|reflexivity].
  rewrite !for_each_app.
  destruct (for_each pre _ _) as [st|e]; [|reflexivity].
  cbn [bind for_each]. rewrite Hskip. reflexivity.
Qed.

(** C7, for the 3D renderer. A record whose geometry does not have nine
    numbers makes the whole render return [None], whatever the other
    records are. *)
Theorem wrong_arity_aborts_3d_render :
  forall (loaded : option image) (cam : cam_params)
         (pre post : list detection) (bad : detection) (g : rng),
    length (geometry bad) <> 9%nat ->
    draw_3dbboxes cv2_line randint loaded cam (pre ++ bad :: post) g = None.
Proof.
  intros loaded cam pre post bad g Hbad.
  unfold Vis3D.draw_3dbboxes. destruct loaded as [img|]; [|reflexivity].
  rewrite for_each_app.
  destruct (for_each pre _ _) as [st|e]; [|reflexivity].
  cbn [bind for_each].
  destruct (draw_box_wrong_arity cam bad st Hbad) as [e ->].
  reflexivity.
Qed.

End Renderer.

Lemma deg2rad_0 : deg2rad 0 = 0.
Proof. unfold deg2rad. ring. Qed.

Lemma origin_box_pixels_degrees :
  convert_3dbbox [0; 0; 0; 2; 2; 2; deg2rad 0; deg2rad 0; deg2rad 0]
                 {| fx := 1000; fy := 1000; cx := 0; cy := 0 |}
  = Ret [ (1000, 1000); (1000, -1000); (-1000, 1000); (-1000, -1000) ].
Proof. rewrite deg2rad_0. apply origin_box_pixels. Qed.

(** C6 as stated fails: of the box at the origin the corners 0 and 2,
    joined by an edge of the wireframe, are both projected, and yet no
    segment is drawn. *)
Lemma partial_box_counterexample :
  let corners :=
    map (world_corner 0 0 0 (cos 0) (sin 0) (cos 0) (sin 0) (cos 0) (sin 0))
        (local_corners (2 / 2) (2 / 2) (2 / 2)) in
  In (0%nat, 2%nat) edges
  /\ (exists P, nth_error corners 0 = Some P /\ in_front P = true)
  /\ (exists P, nth_error corners 2 = Some P /\ in_front P = true)
  /\ draw_3dbboxes line_on counter_randint (Some [])
                   {| fx := 1000; fy := 1000; cx := 0; cy := 0 |}
                   [DList [0; 0; 0; 2; 2; 2; 0; 0; 0]] 0%Z
     = Some ([], []).
Proof.
  cbv zeta. rewrite origin_box_world.
  split; [cbn; tauto|].
  split; [|split].
  - exists (1, 1, 1). split; [reflexivity|].
    apply in_front_true. cbn. lra.
  - exists (1, -1, 1). split; [reflexivity|].
    apply in_front_true. cbn. lra.
  - unfold draw_3dbboxes. cbn [for_each].
    rewrite (draw_box_short _ _ line_on counter_randint _
               (DList [0; 0; 0; 2; 2; 2; 0; 0; 0])
               0 0 0 2 2 2 0 0 0 _ _ eq_refl origin_box_pixels_degrees)
      by (cbn; lia).
    reflexivity.
Qed.

(** ** A box wholly in front of the camera *)

Lemma draw_edge_on_segments (bbox_2d : list pixel) (label : text)
      (c : color) (st : canvas segments Z) (e : nat * nat) :
  (fst e < length bbox_2d)%nat -> (snd e < length bbox_2d)%nat ->
  let st' := draw_edge line_on bbox_2d label c st e in
  length (annotated_image st') = S (length (annotated_image st))
  /\ length (all_label_positions st')
     = (length (all_label_positions st)
        + (if (fst e =? 0)%nat then 1 else 0))%nat.
Proof.
  destruct e as [a b]. cbn [fst snd]. intros Ha Hb.
  unfold draw_edge, index.
  destruct (nth_error bbox_2d a) as [p1|] eqn:E1;
    [|apply nth_error_None in E1; lia].
  destruct (nth_error bbox_2d b) as [p2|] eqn:E2;
    [|apply nth_error_None in E2; lia].
  cbn [bind line_on].
  destruct (Nat.eqb_spec a 0) as [->|Hne].
  - rewrite E1. cbn [annotated_image all_label_positions].
    rewrite !length_app. cbn [length]. split; lia.
  - cbn [annotated_image all_label_positions].
    rewrite length_app. cbn [length]. split; lia.
Qed.

Lemma draw_edges_on_segments (bbox_2d : list pixel) (label : text)
      (c : color) (es : list (nat * nat)) :
  (forall e, In e es ->
             (fst e < length bbox_2d)%nat /\ (snd e < length bbox_2d)%nat) ->
  forall st : canvas segments Z,
    let st' := fold_left (draw_edge line_on bbox_2d label c) es st in
    length (annotated_image st')
    = (length (annotated_image st) + length es)%nat
    /\ length (all_label_positions st')
       = (length (all_label_positions st)
          + length (filter (fun e => (fst e =? 0)%nat) es))%nat.
Proof.
  induction es as [|e es IH]; intros Hes st; cbn [fold_left filter length].
  - split; lia.
  - destruct (Hes e (or_introl eq_refl)) as [Ha Hb].
    destruct (draw_edge_on_segments bbox_2d label c st e Ha Hb) as [E1 E2].
    destruct (IH (fun e' He' => Hes e' (or_intror He'))
                 (draw_edge line_on bbox_2d label c st e)) as [F1 F2].
    cbv zeta in *. rewrite F1, F2, E1, E2.
    destruct (fst e =? 0)%nat; cbn [length]; split; lia.
Qed.

(** With its eight corners projected a box gets its twelve segments, and
    its label once for each of the three edges that leave corner 0. *)
Lemma full_projection_draws_all_edges (cam : cam_params)
      (bbox_data : detection) (x y z x_size y_size z_size pitch yaw roll : R)
      (pts : list pixel) (st : canvas segments Z) :
  geometry bbox_data = [x; y; z; x_size; y_size; z_size; pitch; yaw; roll] ->
  convert_3dbbox [x; y; z; x_size; y_size; z_size;
                  deg2rad pitch; deg2rad yaw; deg2rad roll] cam = Ret pts ->
  length pts = 8%nat ->
  exists st',
    draw_box line_on counter_randint cam bbox_data st = Ret st'
    /\ length (annotated_image st') = (length (annotated_image st) + 12)%nat
    /\ length (all_label_positions st')
       = (length (all_label_positions st) + 3)%nat.
Proof.
  intros Hg Hc Hlen.
  destruct (draw_box_nine _ _ line_on counter_randint cam bbox_data
              _ _ _ _ _ _ _ _ _ st Hg) as [l ->].
  rewrite Hc. cbn [bind]. rewrite Hlen. cbn [Nat.leb].
  destruct (random_color counter_randint (random_state st)) as [c g].
  eexists. split; [reflexivity|].
  assert (Hes : forall e, In e edges ->
                  (fst e < length pts)%nat /\ (snd e < length pts)%nat).
  { intros e He. rewrite Hlen. cbn in He.
    repeat (destruct He as [<-|He]; [cbn; lia|]). contradiction. }
  exact (draw_edges_on_segments pts l c edges Hes
           {| annotated_image := annotated_image st;
              all_label_positions := all_label_positions st;
              random_state := g |}).
Qed.

Lemma filter_all {A : Type} (f : A -> bool) (l : list A) :
  (forall a, In a l -> f a = true) -> filter f l = l.
Proof.
  induction l as [|a l IH]; intros H; [reflexivity|].
  cbn [filter]. rewrite (H a (or_introl eq_refl)). f_equal.
  apply IH. intros b Hb. apply H. now right.
Qed.

(** The box of the specification's second example, ten units ahead. *)
Lemma front_box_rendered :
  exists img labels,
    draw_3dbboxes line_on counter_randint (Some [])
                  {| fx := 1000; fy := 1000; cx := 500; cy := 500 |}
                  [DList [0; 0; 10; 2; 2; 2; 0; 0; 0]] 0%Z
    = Some (img, labels)
    /\ length img = 12%nat /\ length labels = 3%nat.
Proof.
  assert (Hpts : exists pts,
             convert_3dbbox [0; 0; 10; 2; 2; 2;
                             deg2rad 0; deg2rad 0; deg2rad 0]
                            {| fx := 1000; fy := 1000; cx := 500; cy := 500 |}
             = Ret pts /\ length pts = 8%nat).
  { rewrite deg2rad_0, convert_3dbbox_spec, cos_0, sin_0.
    eexists. split; [reflexivity|].
    rewrite length_map, filter_all; [reflexivity|].
    intros P HP. cbn in HP.
    repeat (destruct HP as [<-|HP]; [apply in_front_true; cbn; lra|]).
    contradiction. }
  destruct Hpts as (pts & Hc & Hlen).
  unfold draw_3dbboxes. cbn [for_each].
  match goal with
  | |- context [draw_box _ _ ?cam ?d ?st] =>
      destruct (full_projection_draws_all_edges cam d 0 0 10 2 2 2 0 0 0
                  pts st eq_refl Hc Hlen) as (st' & E & Himg & Hlab)
  end.
  exists (annotated_image st'), (all_label_positions st').
  rewrite E. cbn [bind].
  split; [reflexivity|]. split; assumption.
Qed.

Lemma undersized_projection_skips_box_witness :
  (forall st,
      draw_box line_on counter_randint
               {| fx := 1000; fy := 1000; cx := 0; cy := 0 |}
               (DList [0; 0; 0; 2; 2; 2; 0; 0; 0]) st = Ret st)
  /\ draw_3dbboxes line_on counter_randint (Some [])
                   {| fx := 1000; fy := 1000; cx := 0; cy := 0 |}
                   ([] ++ DList [0; 0; 0; 2; 2; 2; 0; 0; 0]
                       :: [DList [0; 0; 10; 2; 2; 2; 0; 0; 0]]) 0%Z
     = draw_3dbboxes line_on counter_randint (Some [])
                     {| fx := 1000; fy := 1000; cx := 0; cy := 0 |}
                     ([] ++ [DList [0; 0; 10; 2; 2; 2; 0; 0; 0]]) 0%Z.
Proof.
  apply (undersized_projection_skips_box _ _ line_on counter_randint
           (Some []) _ [] _ (DList [0; 0; 0; 2; 2; 2; 0; 0; 0]) 0%Z
           0 0 0 2 2 2 0 0 0 _ eq_refl origin_box_pixels_degrees).
  cbn. lia.
Defined.

Lemma wrong_arity_aborts_3d_render_witness :
  draw_3dbboxes line_on counter_randint (Some [])
                {| fx := 1000; fy := 1000; cx := 500; cy := 500 |}
                ([] ++ DList [0; 0; 10; 2; 2; 2; 0; 0]
                    :: [DDict [0; 0; 10; 2; 2; 2; 0; 0; 0] (Some (lit "car"))])
                0%Z
  = None.
Proof.
  apply wrong_arity_aborts_3d_render. cbn. lia.
Defined.

End Render3DSpec.

(* ================================================================== *)
(** * The 2D renderer *)

Module Render2DSpec.

Import Spec Vis2D.

Lemma swap_is_min_max (a b : Z) :
  (if (a >? b)%Z then (b, a) else (a, b)) = (Z.min a b, Z.max a b).
Proof.
  rewrite Z.gtb_ltb. destruct (Z.ltb_spec b a); f_equal; lia.
Qed.

Lemma pixel_corners_spec (W H : Z) (b0 b1 b2 b3 : float) (x1 y1 x2 y2 : Z) :
  scaled_pixel b0 W = Ret x1 -> scaled_pixel b1 H = Ret y1 ->
  scaled_pixel b2 W = Ret x2 -> scaled_pixel b3 H = Ret y2 ->
  pixel_corners W H b0 b1 b2 b3
  = Ret (Z.min x1 x2, Z.min y1 y2, Z.max x1 x2, Z.max y1 y2).
Proof.
  unfold scaled_pixel, pixel_corners. intros -> -> -> ->. cbn [bind].
  rewrite !swap_is_min_max. reflexivity.
Qed.

(** [int] gives an integer for every finite float. *)
Lemma py_int_finite (x : float) :
  is_finite x = true -> exists z, py_int x = Ret z.
Proof.
  unfold is_finite, py_int, Prim2SF.
  destruct (is_nan x); [discriminate|].
  destruct (is_zero x); [eauto|].
  destruct (is_infinity x); [discriminate|]. intros _.
  destruct (Z.frexp x) as [r ex].
  destruct (shr_fexp _ _ _ _ _) as [shr e'].
  destruct (shr_m shr); eauto.
Qed.

(** A coordinate that is a NaN or too large stops the drawing. *)
Lemma pixel_corners_raises (W H : Z) (b0 b1 b2 b3 : float) (e : exn) :
  scaled_pixel b1 H = Raise e -> pixel_corners W H b0 b1 b2 b3 = Raise e.
Proof. unfold scaled_pixel, pixel_corners. intros ->. reflexivity. Qed.

(** C8. For a geometry of four numbers on an image of width [W] and height
    [H] the renderer adds the rectangle whose corners are the coordinates
    scaled by [raw / 1000 * W] in x and by [raw / 1000 * H] in y, made
    integers, and put in order so that x1 <= x2 and y1 <= y2;
    [100,100,900,900] and [900,900,100,100] on a 500 by 500 image both give
    (50,50)-(450,450). *)
Theorem rectangle_scaled_per_axis_and_ordered :
  forall (W H : Z) (b0 b1 b2 b3 : float) (x1 y1 x2 y2 : Z),
    scaled_pixel b0 W = Ret x1 -> scaled_pixel b1 H = Ret y1 ->
    scaled_pixel b2 W = Ret x2 -> scaled_pixel b3 H = Ret y2 ->
    (forall (i : nat) (label : val) (s : float) (fig : figure),
        exists fig',
          draw_item W H i
                    {| bbox := VNums [b0; b1; b2; b3];
                       label := label; score := VNum s |} fig
          = Ret fig'
          /\ patches fig'
             = patches fig
                 ++ [ {| rect_x := Z.min x1 x2;
                         rect_y := Z.min y1 y2;
                         rect_width := Z.max x1 x2 - Z.min x1 x2;
                         rect_height := Z.max y1 y2 - Z.min y1 y2;
                         rect_color := nth (i mod 24) colors [] |} ])
    /\ pixel_corners W H b0 b1 b2 b3
       = Ret (Z.min x1 x2, Z.min y1 y2, Z.max x1 x2, Z.max y1 y2)
    /\ (Z.min x1 x2 <= Z.max x1 x2)%Z
    /\ (Z.min y1 y2 <= Z.max y1 y2)%Z
    /\ pixel_corners 500 500 100 100 900 900 = Ret (50, 50, 450, 450)%Z
    /\ pixel_corners 500 500 900 900 100 100 = Ret (50, 50, 450, 450)%Z.
Proof.
  intros W H b0 b1 b2 b3 x1 y1 x2 y2 H0 H1 H2 H3.
  pose proof (pixel_corners_spec W H b0 b1 b2 b3 x1 y1 x2 y2 H0 H1 H2 H3) as E.
  split; [|split; [exact E|]].
  - intros i label s fig. unfold draw_item.
    cbn [bbox py_len length Nat.eqb bind number_at index nth_error score
         score_below_one].
    destruct (1 <? b2)%float; cbn [bind]; rewrite E; cbn [bind];
      eexists; split; reflexivity.
  - split; [lia|]. split; [lia|]. split; vm_compute; reflexivity.
Qed.

Lemma rectangle_scaled_per_axis_and_ordered_witness :
  (forall (i : nat) (label : val) (s : float) (fig : figure),
      exists fig',
        draw_item 500 500 i
                  {| bbox := VNums [900; 900; 100; 100]%float;
                     label := label; score := VNum s |} fig
        = Ret fig'
        /\ patches fig'
           = patches fig
               ++ [ {| rect_x := Z.min 450 50;
                       rect_y := Z.min 450 50;
                       rect_width := Z.max 450 50 - Z.min 450 50;
                       rect_height := Z.max 450 50 - Z.min 450 50;
                       rect_color := nth (i mod 24) colors [] |} ])
  /\ pixel_corners 500 500 900 900 100 100
     = Ret (Z.min 450 50, Z.min 450 50, Z.max 450 50, Z.max 450 50)
  /\ (Z.min 450 50 <= Z.max 450 50)%Z
  /\ (Z.min 450 50 <= Z.max 450 50)%Z
  /\ pixel_corners 500 500 100 100 900 900 = Ret (50, 50, 450, 450)%Z
  /\ pixel_corners 500 500 900 900 100 100 = Ret (50, 50, 450, 450)%Z.
Proof.
  apply (rectangle_scaled_per_axis_and_ordered
           500 500 900 900 100 100 450 450 50 50);
    vm_compute; reflexivity.
Defined.

(** The renderer as a whole on the two examples. *)
Lemma examples_rendered_2d :
  (exists fig,
      draw_bboxes_2d (Ret (500, 500)%Z) [IList [100; 100; 900; 900]%float]
      = Drawn fig
      /\ patches fig
         = [ {| rect_x := 50; rect_y := 50;
                rect_width := 400; rect_height := 400;
                rect_color := lit "#FF0000" |} ])
  /\ draw_bboxes_2d (Ret (500, 500)%Z) [IList [900; 900; 100; 100]%float]
     = draw_bboxes_2d (Ret (500, 500)%Z) [IList [100; 100; 900; 900]%float].
Proof.
  split; [eexists; split|]; vm_compute; reflexivity.
Qed.

(** Binary64 is what decides the pixel: 290/1000*100 is just below 29. *)
Lemma scaled_pixel_rounding :
  scaled_pixel 290 100 = Ret 28%Z.
Proof. vm_compute. reflexivity. Qed.

(** The 2D renderer on a geometry of the wrong arity, where the 3D renderer
    gives up: a list of numbers that are not four is reported and passed
    over; the records after it are drawn, each with the colour of its own
    index. *)
Lemma wrong_arity_skipped_2d (W H : Z) (i : nat) (g : list float)
      (label score : val) (rest : list processed) (fig : figure) :
  length g <> 4%nat ->
  draw_items W H i
             ({| bbox := VNums g; label := label; score := score |} :: rest)
             fig
  = draw_items W H (S i) rest
               {| patches := patches fig;
                  texts := texts fig;
                  printed := printed fig ++ [VNums g] |}.
Proof.
  intros Hg. cbn [draw_items]. unfold draw_item.
  cbn [bbox py_len bind].
  destruct (Nat.eqb_spec (length g) 4); [contradiction | reflexivity].
Qed.

(** A batch with a record of three numbers in the middle: both records of
    four numbers are drawn. *)
Lemma batch_with_short_record_2d :
  exists fig,
    draw_bboxes_2d (Ret (500, 500)%Z)
      [ IList [100; 100; 900; 900]%float;
        IDict [(lit "bbox_2d", VNums [1; 2; 3]%float)];
        IList [900; 900; 100; 100]%float ]
    = Drawn fig
    /\ length (patches fig) = 2%nat
    /\ printed fig = [VNums [1; 2; 3]%float].
Proof. eexists. split; [vm_compute; reflexivity|]. split; reflexivity. Qed.

End Render2DSpec.

(* ================================================================== *)
(** * Further properties of the response extractor *)

Module ExtractorFacts.

Import Spec Props TextFacts ApiClient ApiClientSpec.

(** What the loop returns, when it returns, is cut at the first fence
    marker and trimmed. *)
Lemma scan_lines_shape (lines : list text) (r : outcome text) :
  scan_lines lines = Some r ->
  exists x, r = Ret (strip (before_first fence x)).
Proof.
  induction lines as [|line rest IH]; [discriminate|].
  cbn [scan_lines].
  destruct (is_json_fence_line line).
  - intros [= <-]. rewrite split_first. cbn [bind]. eauto.
  - destruct (is_inline_fence_line line) eqn:E; [|exact IH].
    intros [= <-].
    destruct (split_second line fence fence_nonempty
                (inline_fence_has_fence line E)) as [part ->].
    cbn [bind]. rewrite split_first. cbn [bind]. eauto.
Qed.

Lemma scan_lines_found (lines : list text) :
  (exists line, In line lines /\ is_inline_fence_line line = true) ->
  scan_lines lines <> None.
Proof.
  induction lines as [|l rest IH]; intros (line & Hin & Hline).
  - destruct Hin.
  - cbn [scan_lines]. destruct (is_json_fence_line l); [discriminate|].
    destruct (is_inline_fence_line l) eqn:E; [discriminate|].
    apply IH. destruct Hin as [->|Hin]; [congruence|]. eauto.
Qed.

(** ** Texts that begin and end with a character that is not white space *)

Lemma rstrip_last (s : text) (d : char) :
  is_space d = false -> rstrip (s ++ [d]) = s ++ [d].
Proof.
  intros Hd. unfold rstrip. rewrite rev_app_distr. cbn [rev app].
  cbn [lstrip]. rewrite Hd. cbn [rev].
  now rewrite rev_involutive.
Qed.

Lemma trimmed_ends (c d : char) (m : text) :
  is_space c = false -> is_space d = false -> trimmed (c :: m ++ [d]).
Proof.
  intros Hc Hd. unfold trimmed, strip. cbn [lstrip]. rewrite Hc.
  exact (rstrip_last (c :: m) d Hd).
Qed.

Lemma strip_trimmed (s : text) : trimmed (strip s).
Proof. apply strip_idem. Qed.

(** ** Exact values of [find], [rfind] and the slice between them *)

Lemma find_from_app (pre r : text) (c : char) (i : Z) :
  ~ In c pre -> find_from i (pre ++ c :: r) c = (i + Z.of_nat (length pre))%Z.
Proof.
  revert i. induction pre as [|x pre IH]; intros i H; cbn [app find_from].
  - rewrite N.eqb_refl. cbn. lia.
  - destruct (N.eqb_spec x c) as [->|Hx]; [exfalso; apply H; now left|].
    rewrite IH by (intros Hin; apply H; now right). cbn [length]. lia.
Qed.

Lemma rfind_from_absent (s : text) (c : char) (i best : Z) :
  ~ In c s -> rfind_from i best s c = best.
Proof.
  revert i best. induction s as [|x s IH]; intros i best H; [reflexivity|].
  cbn [rfind_from].
  destruct (N.eqb_spec x c) as [->|Hx]; [exfalso; apply H; now left|].
  apply IH. intros Hin. apply H. now right.
Qed.

Lemma rfind_from_app (a post : text) (c : char) (i best : Z) :
  ~ In c post ->
  rfind_from i best (a ++ c :: post) c = (i + Z.of_nat (length a))%Z.
Proof.
  revert i best. induction a as [|x a IH]; intros i best H;
    cbn [app rfind_from].
  - rewrite N.eqb_refl, rfind_from_absent by exact H. cbn. lia.
  - rewrite IH by exact H. cbn [length]. lia.
Qed.

Lemma slice_middle (pre mid post : text) :
  slice (pre ++ mid ++ post) (Z.of_nat (length pre))
        (Z.of_nat (length pre + length mid))
  = mid.
Proof.
  unfold slice. rewrite Nat2Z.id.
  replace (Z.to_nat (Z.of_nat (length pre + length mid) - Z.of_nat (length pre)))
    with (length mid) by lia.
  rewrite skipn_app, skipn_all, Nat.sub_diag. cbn [skipn app].
  rewrite firstn_app, firstn_all, Nat.sub_diag. cbn [firstn].
  apply app_nil_r.
Qed.

(** The search for the outermost pair, on a text with an [opening] that no
    [opening] precedes and a later [closing] that no [closing] follows. *)
Lemma outermost_pair (opening closing : char) (pre mid post : text) :
  ~ In opening pre -> ~ In closing post ->
  let t := pre ++ opening :: mid ++ closing :: post in
  negb (find t opening =? -1)%Z && negb (rfind t closing =? -1)%Z
  && (rfind t closing >? find t opening)%Z = true
  /\ slice t (find t opening) (rfind t closing + 1)
     = opening :: mid ++ [closing].
Proof.
  intros Hpre Hpost t.
  assert (Ef : find t opening = Z.of_nat (length pre)).
  { unfold find, t. now rewrite find_from_app. }
  assert (Er : rfind t closing = Z.of_nat (length pre + S (length mid))).
  { unfold rfind, t.
    replace (pre ++ opening :: mid ++ closing :: post)
      with ((pre ++ opening :: mid) ++ closing :: post)
      by now rewrite <- app_assoc.
    rewrite rfind_from_app by exact Hpost.
    rewrite length_app. cbn [length]. lia. }
  rewrite Ef, Er. split.
  - destruct (Z.eqb_spec (Z.of_nat (length pre)) (-1)); [lia|].
    destruct (Z.eqb_spec (Z.of_nat (length pre + S (length mid))) (-1)); [lia|].
    cbn [negb andb]. apply Z.gtb_lt. lia.
  - replace (Z.of_nat (length pre + S (length mid)) + 1)%Z
      with (Z.of_nat (length pre + length (opening :: mid ++ [closing])))
      by (cbn [length]; rewrite length_app; cbn [length]; lia).
    unfold t.
    replace (pre ++ opening :: mid ++ closing :: post)
      with (pre ++ (opening :: mid ++ [closing]) ++ post)
      by (cbn [app]; now rewrite <- app_assoc).
    apply slice_middle.
Qed.

Lemma bare_json_trimmed (t : text) : trimmed t -> trimmed (bare_json t).
Proof.
  intros Ht. unfold bare_json.
  destruct (startswith t [open_bracket] && endswith t [close_bracket]);
    [exact Ht|].
  destruct (startswith t [open_brace] && endswith t [close_brace]);
    [exact Ht|].
  assert (G : forall opening closing,
             is_space opening = false -> is_space closing = false ->
             negb (find t opening =? -1)%Z && negb (rfind t closing =? -1)%Z
             && (rfind t closing >? find t opening)%Z = true ->
             trimmed (slice t (find t opening) (rfind t closing + 1))).
  { intros opening closing Ho Hc H.
    apply andb_true_iff in H as [H Hgt].
    apply andb_true_iff in H as [Hf Hr].
    apply negb_true_iff, Z.eqb_neq in Hf, Hr. apply Z.gtb_lt in Hgt.
    destruct (find_from_found t opening 0 ltac:(lia) Hf) as (i & Ei & Hi).
    destruct (rfind_from_found t closing 0 (-1)) as [E | (j & Ej & Hj)];
      [unfold rfind in Hr; congruence|].
    unfold find, rfind in *. rewrite Ei, Ej in *.
    destruct (nth_error_split t i Hi) as (l1 & l2 & -> & Hl1).
    assert (Hj' : nth_error l2 (j - i - 1) = Some closing).
    { rewrite nth_error_app2 in Hj by lia.
      replace (j - length l1)%nat with (S (j - i - 1)) in Hj by lia.
      exact Hj. }
    destruct (nth_error_split l2 (j - i - 1) Hj') as (m & l3 & -> & Hm).
    replace (0 + Z.of_nat i)%Z with (Z.of_nat (length l1)) by lia.
    replace (0 + Z.of_nat j + 1)%Z
      with (Z.of_nat (length l1 + length (opening :: m ++ [closing])))
      by (cbn [length]; rewrite length_app; cbn [length]; lia).
    replace (l1 ++ opening :: m ++ closing :: l3)
      with (l1 ++ (opening :: m ++ [closing]) ++ l3)
      by (cbn [app]; now rewrite <- app_assoc).
    rewrite slice_middle. now apply trimmed_ends. }
  destruct (negb (find t open_bracket =? -1)%Z && _ && _) eqn:E1;
    [apply G; [reflexivity | reflexivity | exact E1]|].
  destruct (negb (find t open_brace =? -1)%Z && _ && _) eqn:E2;
    [apply G; [reflexivity | reflexivity | exact E2]|].
  exact Ht.
Qed.

(** X1. On every text [parse_json_response] returns a string, and the
    string has no white space at either end. *)
Theorem extraction_total_and_trimmed :
  forall text : Text.text,
  exists s, parse_json_response text = Ret s /\ trimmed s.
Proof.
  intros text. unfold parse_json_response.
  destruct text as [|c text]; [exists []; split; reflexivity|].
  destruct (scan_lines (splitlines (c :: text))) as [r|] eqn:E.
  - destruct (scan_lines_shape _ r E) as [x ->].
    eexists. split; [reflexivity | apply strip_trimmed].
  - eexists. split; [reflexivity|].
    apply bare_json_trimmed, strip_trimmed.
Qed.

(** X2. When some line opens a json fence, alone or with the payload
    behind it, the string returned holds no fence marker. *)
Theorem fence_found_no_marker_left :
  forall (text s : Text.text),
    (exists line, In line (splitlines text)
                  /\ is_inline_fence_line line = true) ->
    parse_json_response text = Ret s ->
    contains fence s = false.
Proof.
  intros text s Hline. unfold parse_json_response.
  destruct text as [|c text]; [destruct Hline as (l & [] & _)|].
  destruct (scan_lines (splitlines (c :: text))) as [r|] eqn:E;
    [|now apply scan_lines_found in Hline].
  destruct (scan_lines_shape _ r E) as [x ->]. intros [= <-].
  destruct (contains fence (strip (before_first fence x))) eqn:C;
    [|reflexivity].
  apply contains_strip in C.
  now rewrite (before_first_clean fence x fence_nonempty) in C.
Qed.

Lemma fence_found_no_marker_left_witness :
  parse_json_response (lit "Here:
```json [1, 2]``` and ```more```") = Ret (lit "[1, 2]")
  /\ contains fence (lit "[1, 2]") = false.
Proof.
  split; [reflexivity|].
  apply (fence_found_no_marker_left
           (lit "Here:
```json [1, 2]``` and ```more```")).
  - exists (lit "```json [1, 2]``` and ```more```").
    split; [right; now left | reflexivity].
  - reflexivity.
Defined.

(** ** The text outside fences *)

Lemma startswith_one (x c : char) (r : text) :
  startswith (x :: r) [c] = true -> c = x.
Proof.
  cbn [startswith]. intros H. apply andb_true_iff in H as [H _].
  now apply N.eqb_eq in H.
Qed.

Lemma wrapped_is_whole (opening closing : char) (pre mid post : text) :
  ~ In opening pre -> ~ In closing post ->
  startswith (pre ++ opening :: mid ++ closing :: post) [opening]
  && endswith (pre ++ opening :: mid ++ closing :: post) [closing] = true ->
  pre = [] /\ post = [].
Proof.
  intros Hpre Hpost H. apply andb_true_iff in H as [Hs He]. split.
  - destruct pre as [|x pre]; [reflexivity|].
    cbn [app] in Hs. apply startswith_one in Hs. subst x.
    exfalso. apply Hpre. now left.
  - unfold endswith in He. cbn [rev app] in He.
    rewrite rev_app_distr in He. cbn [rev] in He.
    rewrite rev_app_distr in He. cbn [rev] in He.
    destruct (rev post) as [|y l] eqn:E.
    + apply (f_equal (@rev _)) in E. now rewrite rev_involutive in E.
    + rewrite <- !app_assoc in He. cbn [app] in He.
      apply startswith_one in He. subst y.
      exfalso. apply Hpost. apply in_rev. rewrite E. now left.
Qed.

Lemma wrapped_has_pair (opening closing : char) (t : text) :
  opening <> closing ->
  startswith t [opening] && endswith t [closing] = true ->
  ~ no_pair opening closing t.
Proof.
  intros Hne H Hno. apply andb_true_iff in H as [Hs He].
  destruct t as [|x t]; [discriminate|].
  pose proof (startswith_one _ _ _ Hs) as ->.
  unfold endswith in He.
  destruct (rev (x :: t)) as [|y l] eqn:E; [discriminate|].
  pose proof (startswith_one _ _ _ He) as ->.
  apply (f_equal (@rev _)) in E. rewrite rev_involutive in E.
  cbn [rev] in E.
  destruct (rev l) as [|z l'] eqn:El.
  - cbn [app] in E. congruence.
  - cbn [app] in E. injection E as -> ->.
    apply (Hno 0%nat (S (length l'))); [lia | reflexivity|].
    cbn [nth_error]. rewrite nth_error_app2, Nat.sub_diag by lia.
    reflexivity.
Qed.

Lemma strip_nonempty_text (text : Text.text) :
  strip text <> [] -> text <> [].
Proof. intros H ->. now apply H. Qed.

(** X3. Without a json fence, when the trimmed text is not wrapped in
    braces, what comes back is the part from the first [[] to the last
    []], both included, whatever stands before and after. *)
Theorem array_extracted_from_prose :
  forall (text pre mid post : Text.text),
    no_json_fence text ->
    strip text = pre ++ open_bracket :: mid ++ close_bracket :: post ->
    ~ In open_bracket pre -> ~ In close_bracket post ->
    not_wrapped open_brace close_brace (strip text) ->
    parse_json_response text = Ret (open_bracket :: mid ++ [close_bracket]).
Proof.
  intros text pre mid post Hfence Ht Hpre Hpost Hw.
  unfold parse_json_response.
  destruct text as [|c text];
    [destruct pre; discriminate Ht|].
  rewrite scan_lines_none by (intros l Hl; apply Hfence, Hl).
  unfold bare_json. unfold not_wrapped in Hw. rewrite Hw, Ht.
  destruct (startswith _ [open_bracket] && endswith _ [close_bracket]) eqn:E.
  - destruct (wrapped_is_whole _ _ pre mid post Hpre Hpost E) as [-> ->].
    reflexivity.
  - destruct (outermost_pair open_bracket close_bracket pre mid post
                Hpre Hpost) as [-> ->].
    reflexivity.
Qed.

Lemma array_extracted_from_prose_witness :
  parse_json_response
    (lit " The boxes are [{a: [1]}, {a: [2]}] as asked. ")
  = Ret (open_bracket :: lit "{a: [1]}, {a: [2]}" ++ [close_bracket]).
Proof.
  apply (array_extracted_from_prose _ (lit "The boxes are ") _
           (lit " as asked.")).
  - intros line [<-|[]]. split; reflexivity.
  - reflexivity.
  - vm_compute. intuition discriminate.
  - vm_compute. intuition discriminate.
  - reflexivity.
Defined.

(** X4. Without a json fence and without a [[] before a later []], what
    comes back is the part from the first [{] to the last [}], both
    included. *)
Theorem object_extracted_from_prose :
  forall (text pre mid post : Text.text),
    no_json_fence text ->
    strip text = pre ++ open_brace :: mid ++ close_brace :: post ->
    ~ In open_brace pre -> ~ In close_brace post ->
    no_pair open_bracket close_bracket (strip text) ->
    parse_json_response text = Ret (open_brace :: mid ++ [close_brace]).
Proof.
  intros text pre mid post Hfence Ht Hpre Hpost Hno.
  unfold parse_json_response.
  destruct text as [|c text];
    [destruct pre; discriminate Ht|].
  rewrite scan_lines_none by (intros l Hl; apply Hfence, Hl).
  unfold bare_json.
  destruct (startswith _ [open_bracket] && endswith _ [close_bracket]) eqn:E.
  { exfalso. revert Hno. apply wrapped_has_pair; [discriminate | exact E]. }
  rewrite (no_pair_indices _ _ _ Hno). rewrite Ht.
  destruct (startswith _ [open_brace] && endswith _ [close_brace]) eqn:E'.
  - destruct (wrapped_is_whole _ _ pre mid post Hpre Hpost E') as [-> ->].
    reflexivity.
  - destruct (outermost_pair open_brace close_brace pre mid post
                Hpre Hpost) as [-> ->].
    reflexivity.
Qed.

Lemma object_extracted_from_prose_witness :
  parse_json_response (lit "Found: {x: 1} {y: 2}.")
  = Ret (open_brace :: lit "x: 1} {y: 2" ++ [close_brace]).
Proof.
  apply (object_extracted_from_prose _ (lit "Found: ") _ (lit ".")).
  - intros line [<-|[]]. split; reflexivity.
  - reflexivity.
  - vm_compute. intuition discriminate.
  - vm_compute. intuition discriminate.
  - apply no_pair_absent. vm_compute. intuition discriminate.
Defined.

(** ** Blank texts *)

Lemma all_space_iff (t : text) :
  all_space t = true <-> forall c, In c t -> is_space c = true.
Proof. apply forallb_forall. Qed.

Lemma lstrip_all_space (t : text) : all_space t = true -> lstrip t = [].
Proof.
  induction t as [|c t IH]; [reflexivity|].
  cbn [all_space forallb lstrip]. intros H.
  apply andb_true_iff in H as [-> H]. now apply IH.
Qed.

Lemma strip_all_space (t : text) : all_space t = true -> strip t = [].
Proof. intros H. unfold strip. now rewrite lstrip_all_space. Qed.

(** The lines hold nothing but characters of the text. *)
Lemma splitlines_from_chars (n : nat) :
  forall (s cur : text), (length s <= n)%nat ->
  forall l c, In l (splitlines_from cur s) -> In c l -> In c cur \/ In c s.
Proof.
  induction n as [|n IH]; intros s cur Hn l c Hl Hc.
  - destruct s; [|cbn in Hn; lia].
    destruct cur as [|x cur]; [destruct Hl|].
    destruct Hl as [<-|[]]. left. now apply in_rev.
  - destruct s as [|x s].
    + destruct cur as [|y cur]; [destruct Hl|].
      destruct Hl as [<-|[]]. left. now apply in_rev.
    + cbn [length] in Hn. cbn [splitlines_from] in Hl.
      destruct (is_linebreak x).
      * destruct Hl as [<-|Hl]; [left; now apply in_rev|].
        destruct s as [|d s']; [destruct Hl|].
        destruct ((x =? 13) && (d =? 10))%N.
        -- destruct (IH s' [] ltac:(cbn [length] in Hn; lia) l c Hl Hc)
             as [[]|H].
           right. right. now right.
        -- destruct (IH (d :: s') [] ltac:(lia) l c Hl Hc) as [[]|H].
           right. now right.
      * destruct (IH s (x :: cur) ltac:(lia) l c Hl Hc) as [[<-|H]|H].
        -- right. now left.
        -- now left.
        -- right. now right.
Qed.

Lemma splitlines_chars (text l : Text.text) (c : char) :
  In l (splitlines text) -> In c l -> In c text.
Proof.
  intros Hl Hc.
  destruct (splitlines_from_chars (length text) text [] (Nat.le_refl _)
              l c Hl Hc) as [[]|H].
  exact H.
Qed.

Lemma blank_text_extracts_nothing (text : Text.text) :
  all_space text = true -> parse_json_response text = Ret [].
Proof.
  intros H. unfold parse_json_response.
  destruct text as [|c text]; [reflexivity|].
  rewrite scan_lines_none.
  - now rewrite (strip_all_space _ H).
  - intros l Hl. unfold is_inline_fence_line.
    rewrite strip_all_space; [reflexivity|].
    apply all_space_iff. intros x Hx.
    apply (proj1 (all_space_iff _) H). eapply splitlines_chars; eassumption.
Qed.

(** X5. A text of white space only gives the empty list from both parsers,
    with nothing printed and whatever [json.loads] would do: the decoder is
    not consulted. *)
Theorem blank_text_gives_no_detections :
  forall (num : Type) (json_loads : text -> outcome (pyval num))
         (text : Text.text),
    all_space text = true ->
    parse_bbox_3d_from_text json_loads text = (Ret [], [])
    /\ parse_bbox_2d_from_text json_loads text = (Ret [], []).
Proof.
  intros num json_loads text H.
  unfold parse_bbox_3d_from_text, parse_bbox_2d_from_text.
  rewrite (blank_text_extracts_nothing text H). split; reflexivity.
Qed.

Lemma blank_text_gives_no_detections_witness :
  parse_bbox_3d_from_text (fun _ => @Raise (pyval Z) OtherError)
                          (lit "
   ") = (Ret [], [])
  /\ parse_bbox_2d_from_text (fun _ => @Raise (pyval Z) OtherError)
                             (lit "
   ") = (Ret [], []).
Proof.
  apply (blank_text_gives_no_detections Z). reflexivity.
Defined.

(** X6. When the decoder raises on the extracted string, a
    [JSONDecodeError], [IndexError] or [KeyError] is turned into the empty
    list and one printed line that names it; any other exception leaves the
    parser as it is, with nothing printed. *)
Theorem decoder_failure_reported_or_raised :
  forall (num : Type) (json_loads : text -> outcome (pyval num))
         (text s : Text.text) (e : exn),
    parse_json_response text = Ret s -> s <> [] ->
    json_loads s = Raise e ->
    (In e [JSONDecodeError; IndexError; KeyError] ->
     parse_bbox_3d_from_text json_loads text = (Ret [], [(failed_3d, e)])
     /\ parse_bbox_2d_from_text json_loads text = (Ret [], [(failed_2d, e)]))
    /\ (~ In e [JSONDecodeError; IndexError; KeyError] ->
        parse_bbox_3d_from_text json_loads text = (Raise e, [])
        /\ parse_bbox_2d_from_text json_loads text = (Raise e, [])).
Proof.
  intros num json_loads text s e Hs Hne He.
  unfold parse_bbox_3d_from_text, parse_bbox_2d_from_text.
  rewrite Hs. cbn [bind]. destruct s as [|c s]; [congruence|].
  rewrite He. cbn [bind try_except]. split.
  - intros [<-|[<-|[<-|[]]]]; split; reflexivity.
  - intros Hn. destruct e; cbn; try (split; reflexivity);
      exfalso; apply Hn; cbn; tauto.
Qed.

Lemma decoder_failure_reported_or_raised_witness :
  (In TypeError [JSONDecodeError; IndexError; KeyError] ->
   parse_bbox_3d_from_text (fun _ => @Raise (pyval Z) TypeError) (lit "[1]")
   = (Ret [], [(failed_3d, TypeError)])
   /\ parse_bbox_2d_from_text (fun _ => @Raise (pyval Z) TypeError) (lit "[1]")
      = (Ret [], [(failed_2d, TypeError)]))
  /\ (~ In TypeError [JSONDecodeError; IndexError; KeyError] ->
      parse_bbox_3d_from_text (fun _ => @Raise (pyval Z) TypeError) (lit "[1]")
      = (Raise TypeError, [])
      /\ parse_bbox_2d_from_text (fun _ => @Raise (pyval Z) TypeError)
                                 (lit "[1]")
         = (Raise TypeError, [])).
Proof.
  apply (decoder_failure_reported_or_raised Z _ (lit "[1]") (lit "[1]")).
  - reflexivity.
  - discriminate.
  - reflexivity.
Defined.

(** ** The fence with its payload on the same line *)

Lemma split_from_skip (sep a q cur : text) :
  split_from sep (length a) cur (a ++ q) = split_from sep 0 cur q.
Proof.
  induction a as [|x a IH]; [reflexivity|]. cbn [length app split_from].
  exact IH.
Qed.

Lemma split_from_second (sep : text) (s : text) :
  sep <> [] ->
  forall a q cur,
    before_first sep s = a -> s = a ++ sep ++ q ->
    exists p0 rest,
      split_from sep 0 cur s = p0 :: before_first sep q :: rest.
Proof.
  intros Hsep. induction s as [|c s IH]; intros a q cur Ha Hs.
  - destruct a; [|discriminate]. destruct sep; [congruence | discriminate].
  - cbn [before_first] in Ha. cbn [split_from].
    destruct (startswith (c :: s) sep) eqn:E.
    + subst a. cbn [app] in Hs.
      destruct sep as [|y sep']; [congruence|].
      cbn [app] in Hs. injection Hs as -> ->.
      replace (length (y :: sep') - 1)%nat with (length sep')
        by (cbn [length]; lia).
      rewrite split_from_skip.
      destruct (split_from_head (y :: sep') q []) as [rest ->].
      cbn [rev app]. eauto.
    + destruct a as [|x a]; [discriminate|].
      injection Ha as <- Ha. cbn [app] in Hs. injection Hs as Hs.
      exact (IH a q (c :: cur) Ha Hs).
Qed.

Lemma split_second_piece (sep s a q : text) :
  sep <> [] -> before_first sep s = a -> s = a ++ sep ++ q ->
  index (split s sep) 1 = Ret (before_first sep q).
Proof.
  intros Hsep Ha Hs. unfold split.
  destruct (split_from_second sep s Hsep a q [] Ha Hs) as (p0 & rest & ->).
  reflexivity.
Qed.

(** X7. When the first line that opens a json fence carries more than the
    fence, the payload is what stands between the first fence marker of
    that line and the next one, with every occurrence of the word json
    taken out, trimmed, followed by the later lines, cut at the next fence
    marker and trimmed. *)
Theorem inline_fence_extracted :
  forall (text : Text.text) (pre : list Text.text) (line : Text.text)
         (post : list Text.text) (a q : Text.text),
    splitlines text = pre ++ line :: post ->
    (forall l, In l pre -> is_inline_fence_line l = false) ->
    is_json_fence_line line = false ->
    is_inline_fence_line line = true ->
    line = a ++ fence ++ q -> before_first fence line = a ->
    parse_json_response text
    = Ret (strip
             (before_first fence
                (strip (replace (before_first fence q) json_word [])
                   ++ newline ++ join newline post))).
Proof.
  intros text pre line post a q Hlines Hpre Hexact Hinline Hline Ha.
  unfold parse_json_response.
  destruct text as [|c text]; [destruct pre; discriminate|].
  rewrite Hlines, (scan_lines_skip pre _ Hpre).
  cbn [scan_lines]. rewrite Hexact, Hinline.
  rewrite (split_second_piece fence line a q fence_nonempty Ha Hline).
  cbn [bind]. rewrite split_first. reflexivity.
Qed.

Lemma inline_fence_extracted_witness :
  parse_json_response (lit "Here:
```json {fmt: json, n: 1}``` done")
  = Ret (strip
           (before_first fence
              (strip (replace (before_first fence
                                 (lit "json {fmt: json, n: 1}``` done"))
                              json_word [])
                 ++ newline ++ join newline []))).
Proof.
  apply (inline_fence_extracted _ [lit "Here:"]
           (lit "```json {fmt: json, n: 1}``` done") [] []
           (lit "json {fmt: json, n: 1}``` done")).
  - reflexivity.
  - intros l [<-|[]]. reflexivity.
  - reflexivity.
  - reflexivity.
  - reflexivity.
  - reflexivity.
Defined.

(** The word json is lost from the payload of such a line. *)
Lemma inline_fence_drops_json_word :
  parse_json_response (lit "```json {fmt: json, n: 1}``` done")
  = Ret (lit "{fmt: , n: 1}").
Proof. reflexivity. Qed.

End ExtractorFacts.

(* ================================================================== *)
(** * Further properties of the projector *)

Module ProjectorFacts.

Import Spec Props Vis3D Vis3DSpec.
Local Open Scope R_scope.

(** X8. [convert_3dbbox] raises [ValueError] on a box that is not of nine
    numbers, whatever the camera: no list of pixels comes back for it. *)
Theorem convert_raises_unless_nine_numbers :
  forall (point : list R) (cam : cam_params),
    length point <> 9%nat ->
    convert_3dbbox point cam = Raise ValueError
    /\ forall pixels, convert_3dbbox point cam <> Ret pixels.
Proof.
  intros point cam H.
  assert (E : convert_3dbbox point cam = Raise ValueError).
  { destruct point
      as [|a0 [|a1 [|a2 [|a3 [|a4 [|a5 [|a6 [|a7 [|a8 [|a9 p]]]]]]]]]];
      try reflexivity.
    now elim H. }
  split; [exact E|]. intros pixels. rewrite E. discriminate.
Qed.

Lemma convert_raises_unless_nine_numbers_witness :
  convert_3dbbox [0; 0; 10; 2; 2; 2; 0; 0; 0; 0]
                 {| fx := 1000; fy := 1000; cx := 500; cy := 500 |}
  = Raise ValueError
  /\ forall pixels,
      convert_3dbbox [0; 0; 10; 2; 2; 2; 0; 0; 0; 0]
                     {| fx := 1000; fy := 1000; cx := 500; cy := 500 |}
      <> Ret pixels.
Proof.
  apply (convert_raises_unless_nine_numbers
           [0; 0; 10; 2; 2; 2; 0; 0; 0; 0]
           {| fx := 1000; fy := 1000; cx := 500; cy := 500 |}).
  cbn [length]. lia.
Defined.

Lemma rot_norm (a b c s : R) :
  s * s + c * c = 1 ->
  (a * c - b * s) * (a * c - b * s) + (a * s + b * c) * (a * s + b * c)
  = a * a + b * b.
Proof.
  intros H.
  replace (a * a + b * b) with ((a * a + b * b) * (s * s + c * c))
    by (rewrite H; ring).
  ring.
Qed.

Lemma sin_cos_one (t : R) : sin t * sin t + cos t * cos t = 1.
Proof. exact (sin2_cos2 t). Qed.

(** X9. The three rotations move no corner nearer to the centre or farther
    from it: a world corner is as far from the centre (x, y, z) as the local
    corner is from the origin. *)
Theorem rotation_keeps_distance_to_centre :
  forall (x y z pitch yaw roll : R) (corner : point3),
    dist2 (world_corner x y z (cos roll) (sin roll) (cos pitch) (sin pitch)
                        (cos yaw) (sin yaw) corner)
          (x, y, z)
    = dist2 corner (0, 0, 0).
Proof.
  intros x y z pitch yaw roll [[x0 y0] z0].
  cbv beta iota zeta delta [dist2 world_corner].
  set (x1 := x0 * cos yaw + z0 * sin yaw).
  set (z1 := - x0 * sin yaw + z0 * cos yaw).
  set (y2 := y0 * cos pitch - z1 * sin pitch).
  set (z2 := y0 * sin pitch + z1 * cos pitch).
  assert (E3 : (x1 * cos roll - y2 * sin roll) * (x1 * cos roll - y2 * sin roll)
               + (x1 * sin roll + y2 * cos roll) * (x1 * sin roll + y2 * cos roll)
               = x1 * x1 + y2 * y2)
    by (apply rot_norm, sin_cos_one).
  assert (E2 : y2 * y2 + z2 * z2 = y0 * y0 + z1 * z1)
    by (apply rot_norm, sin_cos_one).
  assert (E1 : x1 * x1 + z1 * z1 = x0 * x0 + z0 * z0).
  { unfold x1, z1.
    replace (x0 * x0 + z0 * z0)
      with ((x0 * x0 + z0 * z0) * (sin yaw * sin yaw + cos yaw * cos yaw))
      by (rewrite sin_cos_one; ring).
    ring. }
  replace (x1 * cos roll - y2 * sin roll + x - x)
    with (x1 * cos roll - y2 * sin roll) by ring.
  replace (x1 * sin roll + y2 * cos roll + y - y)
    with (x1 * sin roll + y2 * cos roll) by ring.
  replace (z2 + z - z) with z2 by ring.
  rewrite E3.
  replace (x1 * x1 + y2 * y2 + z2 * z2)
    with (x1 * x1 + (y2 * y2 + z2 * z2)) by ring.
  rewrite E2.
  replace (x1 * x1 + (y0 * y0 + z1 * z1))
    with ((x1 * x1 + z1 * z1) + y0 * y0) by ring.
  rewrite E1. ring.
Qed.

(** X10. With the three angles at zero a corner is only translated. *)
Theorem zero_angles_translate_only :
  forall (x y z x0 y0 z0 : R),
    world_corner x y z (cos 0) (sin 0) (cos 0) (sin 0) (cos 0) (sin 0)
                 (x0, y0, z0)
    = (x0 + x, y0 + y, z0 + z).
Proof.
  intros. rewrite cos_0, sin_0.
  cbv beta iota zeta delta [world_corner].
  apply f_equal2; [apply f_equal2|]; ring.
Qed.



(** ** Boxes wholly in front of the camera, or wholly behind *)

Lemma abs_mul_le (a s : R) : Rabs s <= 1 -> Rabs (a * s) <= Rabs a.
Proof. intros H. rewrite Rabs_mult. pose proof (Rabs_pos a). nra. Qed.

Lemma abs_sin (t : R) : Rabs (sin t) <= 1.
Proof. apply Rabs_le. pose proof (SIN_bound t). lra. Qed.

Lemma abs_cos (t : R) : Rabs (cos t) <= 1.
Proof. apply Rabs_le. pose proof (COS_bound t). lra. Qed.

(** The depth of a corner differs from that of the centre by at most the
    sum of the absolute local coordinates, whatever the angles. *)
Lemma corner_depth_near (x y z pitch yaw roll x0 y0 z0 : R) :
  Rabs (depth (world_corner x y z (cos roll) (sin roll) (cos pitch)
                            (sin pitch) (cos yaw) (sin yaw) (x0, y0, z0))
        - z)
  <= Rabs x0 + Rabs y0 + Rabs z0.
Proof.
  cbv beta iota zeta delta [depth world_corner snd].
  replace (y0 * sin pitch + (- x0 * sin yaw + z0 * cos yaw) * cos pitch + z - z)
    with (y0 * sin pitch + (- x0 * sin yaw + z0 * cos yaw) * cos pitch)
    by ring.
  eapply Rle_trans; [apply Rabs_triang|].
  pose proof (abs_mul_le y0 (sin pitch) (abs_sin pitch)).
  pose proof (abs_mul_le (- x0 * sin yaw + z0 * cos yaw) (cos pitch)
                (abs_cos pitch)).
  pose proof (Rabs_triang (- x0 * sin yaw) (z0 * cos yaw)).
  pose proof (abs_mul_le (- x0) (sin yaw) (abs_sin yaw)) as Hx.
  rewrite Rabs_Ropp in Hx.
  pose proof (abs_mul_le z0 (cos yaw) (abs_cos yaw)).
  lra.
Qed.

Lemma local_corner_abs (hx hy hz a b c : R) :
  In (a, b, c) (local_corners hx hy hz) ->
  Rabs a = Rabs hx /\ Rabs b = Rabs hy /\ Rabs c = Rabs hz.
Proof.
  intros H. cbn in H.
  repeat (destruct H as [H|H];
          [injection H as <- <- <-; rewrite ?Rabs_Ropp; auto|]).
  destruct H.
Qed.

Lemma abs_half (s : R) : Rabs (s / 2) = Rabs s / 2.
Proof.
  unfold Rdiv. rewrite Rabs_mult. f_equal. apply Rabs_pos_eq. lra.
Qed.

Lemma world_depth_bounds (x y z x_size y_size z_size pitch yaw roll : R)
      (P : point3) :
  In P (map (world_corner x y z (cos roll) (sin roll) (cos pitch) (sin pitch)
                          (cos yaw) (sin yaw))
            (local_corners (x_size / 2) (y_size / 2) (z_size / 2))) ->
  z - (Rabs x_size + Rabs y_size + Rabs z_size) / 2 <= depth P
  <= z + (Rabs x_size + Rabs y_size + Rabs z_size) / 2.
Proof.
  intros H. apply in_map_iff in H as ([[a b] c] & <- & Hc).
  destruct (local_corner_abs _ _ _ _ _ _ Hc) as (Ha & Hb & Hc').
  pose proof (corner_depth_near x y z pitch yaw roll a b c) as B.
  rewrite Ha, Hb, Hc', !abs_half in B.
  set (D := depth _) in *.
  pose proof (Rle_abs (D - z)).
  pose proof (Rle_abs (- (D - z))) as N. rewrite Rabs_Ropp in N.
  lra.
Qed.


Lemma filter_keeps_none {A : Type} (f : A -> bool) (l : list A) :
  (forall a, In a l -> f a = false) -> filter f l = [].
Proof.
  induction l as [|a l IH]; intros H; [reflexivity|].
  cbn [filter]. rewrite (H a (or_introl eq_refl)).
  apply IH. intros b Hb. apply H. now right.
Qed.


Lemma behind_none (cam : cam_params)
      (x y z x_size y_size z_size pitch yaw roll : R) :
  Rabs x_size + Rabs y_size + Rabs z_size <= - (2 * z) ->
  convert_3dbbox [x; y; z; x_size; y_size; z_size; pitch; yaw; roll] cam
  = Ret [].
Proof.
  intros H.
  rewrite convert_3dbbox_spec, filter_keeps_none; [reflexivity|].
  intros P HP. apply in_front_false.
  pose proof (world_depth_bounds _ _ _ _ _ _ _ _ _ P HP). lra.
Qed.



(** X13. A box whose centre lies behind the camera by at least half the sum
    of its three extents gives no pixel, however it is turned. *)
Theorem box_behind_gives_no_pixel :
  forall (cam : cam_params) (x y z x_size y_size z_size pitch yaw roll : R),
    Rabs x_size + Rabs y_size + Rabs z_size <= - (2 * z) ->
    convert_3dbbox [x; y; z; x_size; y_size; z_size; pitch; yaw; roll] cam
    = Ret [].
Proof. intros. now apply behind_none. Qed.

Lemma box_behind_gives_no_pixel_witness :
  convert_3dbbox [0; 0; -10; 2; 2; 2; 1; 2; 3]
                 {| fx := 1000; fy := 1000; cx := 500; cy := 500 |}
  = Ret [].
Proof.
  apply box_behind_gives_no_pixel.
  rewrite !Rabs_pos_eq by lra. lra.
Defined.

End ProjectorFacts.

(* ================================================================== *)
(** * Further properties of the 3D renderer *)

Module Render3DFacts.

Import Spec Props Vis3D Vis3DSpec Render3DSpec ProjectorFacts.
Local Open Scope R_scope.

Lemma nine_numbers (b : list R) :
  length b = 9%nat ->
  exists x y z x_size y_size z_size pitch yaw roll,
    b = [x; y; z; x_size; y_size; z_size; pitch; yaw; roll].
Proof.
  destruct b as [|a0 [|a1 [|a2 [|a3 [|a4 [|a5 [|a6 [|a7 [|a8 [|a9 b]]]]]]]]]];
    try discriminate.
  intros _. repeat eexists.
Qed.

Section Renderer.

Variables image rng : Type.
Variable cv2_line : image -> point -> point -> color -> outcome image.
Variable randint : Z -> Z -> rng -> Z * rng.

(** ** When [cv2.line] fails *)

Hypothesis line_always_fails :
  forall img pt1 pt2 c, exists e, cv2_line img pt1 pt2 c = Raise e.

Lemma draw_edge_failing (bbox_2d : list pixel) (label : text) (c : color)
      (st : canvas image rng) (e : nat * nat) :
  draw_edge cv2_line bbox_2d label c st e = st.
Proof.
  destruct e as [a b]. unfold draw_edge.
  destruct (index bbox_2d a) as [p1|]; [|reflexivity]. cbn [bind].
  destruct (index bbox_2d b) as [p2|]; [|reflexivity]. cbn [bind].
  destruct (line_always_fails (annotated_image st)
              (py_int (fst p1), py_int (snd p1))
              (py_int (fst p2), py_int (snd p2)) c) as [e ->].
  reflexivity.
Qed.

Lemma draw_edges_failing (bbox_2d : list pixel) (label : text) (c : color)
      (es : list (nat * nat)) (st : canvas image rng) :
  fold_left (draw_edge cv2_line bbox_2d label c) es st = st.
Proof.
  revert st. induction es as [|e es IH]; intros st; [reflexivity|].
  cbn [fold_left]. rewrite draw_edge_failing. apply IH.
Qed.

Lemma draw_box_failing (cam : cam_params) (d : detection)
      (st : canvas image rng) :
  length (geometry d) = 9%nat ->
  exists st',
    draw_box cv2_line randint cam d st = Ret st'
    /\ annotated_image st' = annotated_image st
    /\ all_label_positions st' = all_label_positions st.
Proof.
  intros H.
  destruct (nine_numbers _ H) as (x & y & z & sx & sy & sz & p & yw & r & Hg).
  destruct (draw_box_nine _ _ cv2_line randint cam d _ _ _ _ _ _ _ _ _ st Hg)
    as [l ->].
  rewrite convert_3dbbox_spec. cbn [bind].
  destruct (8 <=? _)%nat; [|eauto].
  destruct (random_color randint (random_state st)) as [c g].
  rewrite draw_edges_failing. eexists. split; [reflexivity|]. split; reflexivity.
Qed.

Lemma batch_failing (cam : cam_params) (l : list detection) :
  (forall d, In d l -> length (geometry d) = 9%nat) ->
  forall st, exists st',
      for_each l (draw_box cv2_line randint cam) st = Ret st'
      /\ annotated_image st' = annotated_image st
      /\ all_label_positions st' = all_label_positions st.
Proof.
  induction l as [|d l IH]; intros H st; cbn [for_each]; [eauto|].
  destruct (draw_box_failing cam d st (H d (or_introl eq_refl)))
    as (st1 & -> & E1 & E2).
  cbn [bind].
  destruct (IH (fun d' Hd' => H d' (or_intror Hd')) st1)
    as (st2 & -> & F1 & F2).
  exists st2. split; [reflexivity|]. split; congruence.
Qed.

Lemma failing_render (img : image) (cam : cam_params) (l : list detection)
      (g : rng) :
  (forall d, In d l -> length (geometry d) = 9%nat) ->
  draw_3dbboxes cv2_line randint (Some img) cam l g = Some (img, []).
Proof.
  intros H. unfold draw_3dbboxes.
  destruct (batch_failing cam l H
              {| annotated_image := img; all_label_positions := [];
                 random_state := g |}) as (st' & -> & E1 & E2).
  cbn [annotated_image all_label_positions] in E1, E2.
  now rewrite E1, E2.
Qed.

End Renderer.

(** X15. When every call of [cv2.line] fails, a batch of records of nine
    numbers still gives a figure: the image as it was read, with no label
    on it. *)
Theorem failing_lines_leave_image_unmarked :
  forall (image rng : Type)
         (cv2_line : image -> point -> point -> color -> outcome image)
         (randint : Z -> Z -> rng -> Z * rng)
         (img : image) (cam : cam_params) (l : list detection) (g : rng),
    (forall i pt1 pt2 c, exists e, cv2_line i pt1 pt2 c = Raise e) ->
    (forall d, In d l -> length (geometry d) = 9%nat) ->
    draw_3dbboxes cv2_line randint (Some img) cam l g = Some (img, []).
Proof.
  intros image rng cv2_line randint img cam l g Hfail Hnine.
  now apply failing_render.
Qed.

Lemma failing_lines_leave_image_unmarked_witness :
  draw_3dbboxes line_fails counter_randint (Some [])
                {| fx := 1000; fy := 1000; cx := 500; cy := 500 |}
                [DList [0; 0; 10; 2; 2; 2; 0; 0; 0]] 0%Z
  = Some ([], []).
Proof.
  apply failing_lines_leave_image_unmarked.
  - intros i pt1 pt2 c. exists OtherError. reflexivity.
  - intros d [<-|[]]. reflexivity.
Defined.

(** ** Boxes behind the camera *)

Lemma box_behind_inv (d : detection) :
  box_behind d ->
  exists x y z x_size y_size z_size pitch yaw roll,
    geometry d = [x; y; z; x_size; y_size; z_size; pitch; yaw; roll]
    /\ Rabs x_size + Rabs y_size + Rabs z_size <= - (2 * z).
Proof.
  unfold box_behind.
  destruct (geometry d)
    as [|a0 [|a1 [|a2 [|a3 [|a4 [|a5 [|a6 [|a7 [|a8 [|a9 b]]]]]]]]]];
    try contradiction.
  intros H. repeat eexists. exact H.
Qed.

(** X17. A box that lies behind the camera is passed over in silence: the
    render returns what it returns without that record, whatever
    [cv2.line] and the random generator do. *)
Theorem box_behind_is_skipped :
  forall (image rng : Type)
         (cv2_line : image -> point -> point -> color -> outcome image)
         (randint : Z -> Z -> rng -> Z * rng)
         (loaded : option image) (cam : cam_params)
         (pre post : list detection) (d : detection) (g : rng),
    box_behind d ->
    draw_3dbboxes cv2_line randint loaded cam (pre ++ d :: post) g
    = draw_3dbboxes cv2_line randint loaded cam (pre ++ post) g.
Proof.
  intros image rng cv2_line randint loaded cam pre post d g H.
  destruct (box_behind_inv d H)
    as (x & y & z & sx & sy & sz & p & yw & r & Hg & Hbehind).
  pose proof (behind_none cam x y z sx sy sz (deg2rad p) (deg2rad yw)
                (deg2rad r) Hbehind) as Hc.
  unfold draw_3dbboxes. destruct loaded as [img|]; [|reflexivity].
  rewrite !for_each_app.
  destruct (for_each pre _ _) as [st|e]; [|reflexivity].
  cbn [bind for_each].
  rewrite (draw_box_short _ _ cv2_line randint cam d x y z sx sy sz p yw r
             [] st Hg Hc) by (cbn; lia).
  reflexivity.
Qed.

Lemma box_behind_is_skipped_witness :
  draw_3dbboxes line_on counter_randint (Some [])
                {| fx := 1000; fy := 1000; cx := 500; cy := 500 |}
                ([] ++ DList [0; 0; -10; 2; 2; 2; 30; 45; 60]
                    :: [DList [0; 0; 10; 2; 2; 2; 0; 0; 0]]) 0%Z
  = draw_3dbboxes line_on counter_randint (Some [])
                  {| fx := 1000; fy := 1000; cx := 500; cy := 500 |}
                  ([] ++ [DList [0; 0; 10; 2; 2; 2; 0; 0; 0]]) 0%Z.
Proof.
  apply box_behind_is_skipped.
  cbn. rewrite !Rabs_pos_eq by lra. lra.
Defined.

End Render3DFacts.

(* ================================================================== *)
(** * Further properties of the 2D renderer *)

Module Render2DFacts.

Import Spec Props Vis2D Render2DSpec.

Lemma draw_items_app (W H : Z) (a b : list processed) :
  forall (i : nat) (fig : figure),
    draw_items W H i (a ++ b) fig
    = bind (draw_items W H i a fig) (draw_items W H (i + length a) b).
Proof.
  induction a as [|it a IH]; intros i fig; cbn [app draw_items length].
  - cbn [bind]. now rewrite Nat.add_0_r.
  - destruct (draw_item W H i it fig) as [fig'|e]; cbn [bind]; [|reflexivity].
    rewrite IH. now rewrite Nat.add_succ_r.
Qed.

Lemma ignored_normalise (it : item) : ignored_2d it -> normalise it = [].
Proof.
  destruct it as [d|l|]; cbn [ignored_2d normalise].
  - intros [(H1 & H2 & H3)|(v & Hv & Hf)].
    + now rewrite H1, H2, H3.
    + unfold mem. rewrite Hv. cbv beta iota zeta. rewrite Hv, Hf.
      reflexivity.
  - intros H. destruct (Nat.leb_spec 4 (length l)); [lia | reflexivity].
  - reflexivity.
Qed.

(** X18. A record that is neither a dictionary nor a list, a bare list of
    fewer than four numbers, a dictionary with none of the three geometry
    keys, and a dictionary whose [bbox_2d] is empty or zero (whatever its
    other keys hold) leave no trace: the figure is the one of the batch
    without that record, and nothing is printed for it. *)
Theorem ignored_record_leaves_no_trace :
  forall (opened : outcome (Z * Z)) (pre post : list item) (it : item),
    ignored_2d it ->
    draw_bboxes_2d opened (pre ++ it :: post)
    = draw_bboxes_2d opened (pre ++ post).
Proof.
  intros opened pre post it H. unfold draw_bboxes_2d.
  destruct opened as [[W Hh]|e]; [|reflexivity].
  rewrite !flat_map_app. cbn [flat_map].
  now rewrite (ignored_normalise it H).
Qed.

Lemma ignored_record_leaves_no_trace_witness :
  draw_bboxes_2d (Ret (500, 500)%Z)
    ([IList [100; 100; 900; 900]%float]
       ++ IDict [(lit "bbox_2d", VNums []);
                 (lit "bbox", VNums [1; 2; 3; 4]%float)]
       :: [IList [1; 2; 3]%float])
  = draw_bboxes_2d (Ret (500, 500)%Z)
      ([IList [100; 100; 900; 900]%float] ++ [IList [1; 2; 3]%float]).
Proof.
  apply ignored_record_leaves_no_trace.
  right. exists (VNums []). split; reflexivity.
Defined.

(** ** What one record does to the figure *)

Lemma draw_item_inv (W H : Z) (i : nat) (it : processed) (fig fig' : figure) :
  draw_item W H i it fig = Ret fig' ->
  (patches fig' = patches fig /\ texts fig' = texts fig
   /\ printed fig' = printed fig ++ [bbox it])
  \/ (exists r t,
         patches fig' = patches fig ++ [r]
         /\ texts fig' = texts fig ++ [t]
         /\ printed fig' = printed fig
         /\ (0 <= rect_width r)%Z /\ (0 <= rect_height r)%Z
         /\ rect_color r = nth (i mod 24) colors []).
Proof.
  unfold draw_item. destruct it as [b lbl sc]. cbn [bbox label score].
  destruct b as [x|s|l]; cbn [py_len bind].
  - discriminate.
  - destruct (length s =? 4)%nat.
    + cbn [number_at]. destruct (index s 2); discriminate.
    + intros [= <-]. left. repeat split; reflexivity.
  - destruct (Nat.eqb_spec (length l) 4) as [E|E].
    + destruct l as [|b0 [|b1 [|b2 [|b3 [|b4 l]]]]]; try discriminate E.
      cbn [number_at index nth_error bind].
      assert (G : forall m : outcome bool,
                 (exists v, m = Ret v) ->
                 (_ <- m ;;
                  corners <- pixel_corners W H b0 b1 b2 b3 ;;
                  let '(abs_x1, abs_y1, abs_x2, abs_y2) := corners in
                  let width := (abs_x2 - abs_x1)%Z in
                  let height := (abs_y2 - abs_y1)%Z in
                  let rect := {| rect_x := abs_x1; rect_y := abs_y1;
                                 rect_width := width; rect_height := height;
                                 rect_color := nth (i mod length colors)
                                                   colors [] |} in
                  below <- score_below_one sc ;;
                  let label_text :=
                    match sc, below with
                    | VNum s, true => LabelScore lbl s
                    | _, _ => LabelOnly lbl
                    end in
                  Ret {| patches := patches fig ++ [rect];
                         texts := texts fig
                                    ++ [((abs_x1 + 8)%Z, (abs_y1 + 6)%Z,
                                         label_text,
                                         nth (i mod length colors) colors [])];
                         printed := printed fig |})%py = Ret fig' ->
                 exists r t,
                   patches fig' = patches fig ++ [r]
                   /\ texts fig' = texts fig ++ [t]
                   /\ printed fig' = printed fig
                   /\ (0 <= rect_width r)%Z /\ (0 <= rect_height r)%Z
                   /\ rect_color r = nth (i mod 24) colors []).
      { intros m [v ->]. cbn [bind]. unfold pixel_corners.
        destruct (py_int (b1 / 1000 * float_of_Z H)) as [y1|]; [|discriminate].
        destruct (py_int (b0 / 1000 * float_of_Z W)) as [x1|]; [|discriminate].
        destruct (py_int (b3 / 1000 * float_of_Z H)) as [y2|]; [|discriminate].
        destruct (py_int (b2 / 1000 * float_of_Z W)) as [x2|]; [|discriminate].
        cbn [bind]. rewrite !swap_is_min_max. cbn [bind].
        destruct (score_below_one sc) as [below|]; [|discriminate].
        cbn [bind]. intros [= <-].
        eexists. eexists. cbn [patches texts printed].
        split; [reflexivity|]. split; [reflexivity|]. split; [reflexivity|].
        cbn [rect_width rect_height rect_color].
        split; [lia|]. split; [lia | reflexivity]. }
      intros Hfig. right. revert Hfig. apply G.
      destruct (1 <? b2)%float; cbn [bind]; eauto.
    + intros [= <-]. left. repeat split; reflexivity.
Qed.

Lemma draw_items_invariant (W H : Z) (items : list processed) :
  forall (i : nat) (fig fig' : figure),
    draw_items W H i items fig = Ret fig' ->
    (Forall (fun r => (0 <= rect_width r)%Z /\ (0 <= rect_height r)%Z)
            (patches fig) ->
     Forall (fun r => (0 <= rect_width r)%Z /\ (0 <= rect_height r)%Z)
            (patches fig'))
    /\ (length (patches fig') - length (patches fig)
        = length (texts fig') - length (texts fig))%nat
    /\ (length (patches fig) <= length (patches fig'))%nat
    /\ (length (texts fig) <= length (texts fig'))%nat
    /\ (length (patches fig') + length (printed fig')
        = length (patches fig) + length (printed fig) + length items)%nat.
Proof.
  induction items as [|it items IH]; intros i fig fig'; cbn [draw_items].
  - intros [= <-]. cbn [length]. repeat split; auto; lia.
  - destruct (draw_item W H i it fig) as [fig1|e] eqn:E; [|discriminate].
    cbn [bind]. intros Hrest.
    destruct (IH (S i) fig1 fig' Hrest) as (I1 & I2 & I3 & I4 & I5).
    destruct (draw_item_inv W H i it fig fig1 E)
      as [(P & T & R)|(r & t & P & T & R & Hw & Hh & _)].
    + rewrite P, T, R in *. rewrite length_app in I5. cbn [length] in *.
      repeat split; auto; lia.
    + rewrite P, T, R in *. rewrite !length_app in *. cbn [length] in *.
      repeat split; try lia.
      intros F. apply I1. apply Forall_app. split; [exact F|].
      constructor; [split; assumption | constructor].
Qed.

(** X19. In a figure that was drawn every processed record was either
    given a rectangle or reported as invalid, and each rectangle has its
    label: there are as many labels as rectangles, and rectangles and
    reports together are as many as the processed records. *)
Theorem every_record_drawn_or_reported :
  forall (W H : Z) (bbox_data : list item) (fig : figure),
    draw_bboxes_2d (Ret (W, H)) bbox_data = Drawn fig ->
    length (texts fig) = length (patches fig)
    /\ (length (patches fig) + length (printed fig)
        = length (flat_map normalise bbox_data))%nat.
Proof.
  intros W H bbox_data fig. unfold draw_bboxes_2d.
  destruct (draw_items W H 0 (flat_map normalise bbox_data) _)
    as [fig'|e] eqn:E; [|discriminate].
  intros [= <-].
  destruct (draw_items_invariant W H _ _ _ _ E) as (_ & I2 & I3 & I4 & I5).
  cbn [patches texts printed length] in *. split; lia.
Qed.

Lemma every_record_drawn_or_reported_witness :
  draw_bboxes_2d (Ret (500, 500)%Z)
    [IList [100; 100; 900; 900]%float;
     IOther;
     IDict [(lit "bbox_2d", VNums [1; 2; 3]%float)];
     IList [1; 2; 3; 4; 5]%float]
  = Drawn {| patches := [ {| rect_x := 50; rect_y := 50;
                             rect_width := 400; rect_height := 400;
                             rect_color := lit "#FF0000" |} ];
             texts := [ (58, 56, LabelOnly (VStr (lit "object")),
                         lit "#FF0000")%Z ];
             printed := [ VNums [1; 2; 3]%float;
                          VNums [1; 2; 3; 4; 5]%float ] |}
  /\ length [ (58, 56, LabelOnly (VStr (lit "object")), lit "#FF0000")%Z ]
     = length [ {| rect_x := 50; rect_y := 50;
                   rect_width := 400; rect_height := 400;
                   rect_color := lit "#FF0000" |} ]
  /\ (length [ {| rect_x := 50; rect_y := 50;
                  rect_width := 400; rect_height := 400;
                  rect_color := lit "#FF0000" |} ]
      + length [ VNums [1; 2; 3]%float; VNums [1; 2; 3; 4; 5]%float ]
      = length (flat_map normalise
                  [IList [100; 100; 900; 900]%float;
                   IOther;
                   IDict [(lit "bbox_2d", VNums [1; 2; 3]%float)];
                   IList [1; 2; 3; 4; 5]%float]))%nat.
Proof.
  assert (E : draw_bboxes_2d (Ret (500, 500)%Z)
                [IList [100; 100; 900; 900]%float;
                 IOther;
                 IDict [(lit "bbox_2d", VNums [1; 2; 3]%float)];
                 IList [1; 2; 3; 4; 5]%float]
              = Drawn {| patches := [ {| rect_x := 50; rect_y := 50;
                                         rect_width := 400; rect_height := 400;
                                         rect_color := lit "#FF0000" |} ];
                         texts := [ (58, 56, LabelOnly (VStr (lit "object")),
                                     lit "#FF0000")%Z ];
                         printed := [ VNums [1; 2; 3]%float;
                                      VNums [1; 2; 3; 4; 5]%float ] |})
    by (vm_compute; reflexivity).
  split; [exact E|].
  exact (every_record_drawn_or_reported 500 500 _ _ E).
Defined.

(** X20. No rectangle of a drawn figure has a negative width or height,
    in whatever order the corners of a record came. *)
Theorem rectangles_have_nonnegative_sizes :
  forall (W H : Z) (bbox_data : list item) (fig : figure) (r : rectangle),
    draw_bboxes_2d (Ret (W, H)) bbox_data = Drawn fig ->
    In r (patches fig) ->
    (0 <= rect_width r)%Z /\ (0 <= rect_height r)%Z.
Proof.
  intros W H bbox_data fig r. unfold draw_bboxes_2d.
  destruct (draw_items W H 0 (flat_map normalise bbox_data) _)
    as [fig'|e] eqn:E; [|discriminate].
  intros [= <-] Hr.
  destruct (draw_items_invariant W H _ _ _ _ E) as (I1 & _).
  cbn [patches] in I1. specialize (I1 (Forall_nil _)).
  rewrite Forall_forall in I1. exact (I1 r Hr).
Qed.

Lemma rectangles_have_nonnegative_sizes_witness :
  (0 <= rect_width {| rect_x := 50; rect_y := 50; rect_width := 400;
                      rect_height := 400; rect_color := lit "#FF0000" |})%Z
  /\ (0 <= rect_height {| rect_x := 50; rect_y := 50; rect_width := 400;
                          rect_height := 400;
                          rect_color := lit "#FF0000" |})%Z.
Proof.
  eapply (rectangles_have_nonnegative_sizes 500 500
            [IList [900; 900; 100; 100]%float]).
  - vm_compute. reflexivity.
  - cbn [patches]. left. reflexivity.
Defined.

(** ** Records that stop the drawing *)

Lemma raising_record_aborts (W H : Z) (pre post : list item) (it : item)
      (rec : processed) :
  normalise it = [rec] ->
  (forall i fig, exists e, draw_item W H i rec fig = Raise e) ->
  exists e, draw_bboxes_2d (Ret (W, H)) (pre ++ it :: post) = ErrorFigure e.
Proof.
  intros Hn Hraise. unfold draw_bboxes_2d.
  rewrite flat_map_app. cbn [flat_map]. rewrite Hn.
  rewrite draw_items_app.
  destruct (draw_items W H 0 (flat_map normalise pre) _) as [fig1|e];
    cbn [bind]; [|eauto].
  cbn [app draw_items].
  destruct (Hraise (0 + length (flat_map normalise pre))%nat fig1) as [e ->].
  cbn [bind]. eauto.
Qed.

(** X21. A record whose [bbox_2d] is a number and not a list, or whose
    geometry has four numbers but whose score is a string, does not get
    passed over as a geometry of the wrong length does: the whole figure is
    replaced by the error figure, and no record of the batch is shown. *)
Theorem malformed_record_gives_error_figure :
  forall (W H : Z) (pre post : list item) (d : list (text * val)),
    (exists x, get d (lit "bbox_2d") = Some (VNum x)
               /\ truthy (VNum x) = true)
    \/ (exists b0 b1 b2 b3 s,
           get d (lit "bbox_2d") = Some (VNums [b0; b1; b2; b3])
           /\ get d (lit "score") = Some (VStr s)) ->
    exists e,
      draw_bboxes_2d (Ret (W, H)) (pre ++ IDict d :: post) = ErrorFigure e.
Proof.
  intros W H pre post d [(x & Hx & Ht)|(b0 & b1 & b2 & b3 & s & Hb & Hs)].
  - eapply raising_record_aborts.
    + cbn [normalise]. unfold mem. rewrite Hx. cbv beta iota zeta.
      rewrite Hx, Ht. reflexivity.
    + intros i fig. exists TypeError. reflexivity.
  - eapply raising_record_aborts.
    + cbn [normalise]. unfold mem, get_default. rewrite Hb.
      cbv beta iota zeta. rewrite Hb, Hs. reflexivity.
    + intros i fig. unfold draw_item.
      cbn [bbox py_len length Nat.eqb bind number_at index nth_error score].
      destruct (1 <? b2)%float; cbn [bind];
        destruct (pixel_corners W H b0 b1 b2 b3) as [[[[x1 y1] x2] y2]|e];
        cbn [bind score_below_one]; eauto.
Qed.

Lemma malformed_record_gives_error_figure_witness :
  exists e,
    draw_bboxes_2d (Ret (500, 500)%Z)
      ([IList [100; 100; 900; 900]%float]
         ++ IDict [(lit "bbox_2d", VNum 5%float)] :: [])
    = ErrorFigure e.
Proof.
  apply malformed_record_gives_error_figure.
  left. exists 5%float. split; reflexivity.
Defined.

End Render2DFacts.

(* ================================================================== *)
(** * Properties of the generated camera *)

Module CameraFacts.

Import Vis3D CameraUtils.
Local Open Scope R_scope.

(** X22. Unless both focal lengths are supplied the camera returned has
    [fx = fy]: a focal length supplied alone is discarded for the one
    computed from the field of view, and an image that cannot be opened
    gives the default camera, whatever was supplied. *)
Theorem lone_focal_length_is_discarded :
  forall (round2 : R -> R) (opened : outcome (Z * Z))
         (fx fy cx cy : option R) (fov : R),
    fx = None \/ fy = None ->
    Vis3D.fx (generate_camera_params round2 opened fx fy cx cy fov)
    = Vis3D.fy (generate_camera_params round2 opened fx fy cx cy fov)
    /\ (forall w h,
           opened = Ret (w, h) ->
           Vis3D.fx (generate_camera_params round2 opened fx fy cx cy fov)
           = round2 ((IZR w + IZR h) / 2 / (2 * tan (deg2rad fov / 2))))
    /\ (forall e,
           opened = Raise e ->
           generate_camera_params round2 opened fx fy cx cy fov
           = {| Vis3D.fx := 1000; Vis3D.fy := 1000;
                Vis3D.cx := 640; Vis3D.cy := 360 |}).
Proof.
  intros round2 opened fx fy cx cy fov H.
  split; [|split].
  - destruct opened as [[w h]|e]; [|reflexivity].
    destruct fx as [a|], fy as [b|], cx as [c|], cy as [d|];
      try reflexivity; destruct H; discriminate.
  - intros w h ->.
    destruct fx as [a|], fy as [b|], cx as [c|], cy as [d|];
      try reflexivity; destruct H; discriminate.
  - intros e ->. reflexivity.
Qed.

Lemma lone_focal_length_is_discarded_witness :
  Vis3D.fx (generate_camera_params (fun x => x) (Ret (640, 480)%Z)
              (Some 700) None None None 90)
  = Vis3D.fy (generate_camera_params (fun x => x) (Ret (640, 480)%Z)
                (Some 700) None None None 90)
  /\ (forall w h,
         Ret (640, 480)%Z = Ret (w, h) ->
         Vis3D.fx (generate_camera_params (fun x => x) (Ret (640, 480)%Z)
                     (Some 700) None None None 90)
         = (fun x => x) ((IZR w + IZR h) / 2 / (2 * tan (deg2rad 90 / 2))))
  /\ (forall e,
         Ret (640, 480)%Z = Raise e ->
         generate_camera_params (fun x => x) (Ret (640, 480)%Z)
                                (Some 700) None None None 90
         = {| Vis3D.fx := 1000; Vis3D.fy := 1000;
              Vis3D.cx := 640; Vis3D.cy := 360 |}).
Proof.
  apply lone_focal_length_is_discarded. now right.
Defined.

Lemma half_angle_in_range (fov : R) :
  0 < fov < 180 -> 0 < deg2rad fov / 2 < PI / 2.
Proof.
  intros [H0 H1]. unfold deg2rad. pose proof PI_RGT_0. split.
  - apply Rdiv_lt_0_compat; [|lra]. apply Rmult_lt_0_compat; lra.
  - assert (fov * (PI / 180) < 180 * (PI / 180))
      by (apply Rmult_lt_compat_r; lra).
    lra.
Qed.

(** X23. For a field of view strictly between 0 and 180 degrees and an
    image that is not empty, the focal length before rounding is positive;
    so, with a rounding that takes no positive number below zero, the
    camera generated from the image size has [fx = fy >= 0]. *)
Theorem generated_focal_length_not_negative :
  forall (round2 : R -> R) (w h : Z) (cx cy : option R) (fov : R),
    (forall x, 0 < x -> 0 <= round2 x) ->
    (0 < w)%Z -> (0 < h)%Z -> 0 < fov < 180 ->
    0 < (IZR w + IZR h) / 2 / (2 * tan (deg2rad fov / 2))
    /\ 0 <= Vis3D.fx (generate_camera_params round2 (Ret (w, h))
                        None None cx cy fov)
    /\ Vis3D.fy (generate_camera_params round2 (Ret (w, h))
                   None None cx cy fov)
       = Vis3D.fx (generate_camera_params round2 (Ret (w, h))
                     None None cx cy fov).
Proof.
  intros round2 w h cx cy fov Hround Hw Hh Hfov.
  assert (Hpos : 0 < (IZR w + IZR h) / 2 / (2 * tan (deg2rad fov / 2))).
  { destruct (half_angle_in_range fov Hfov) as [A B].
    pose proof (tan_gt_0 _ A B).
    apply IZR_lt in Hw, Hh.
    apply Rdiv_lt_0_compat; lra. }
  split; [exact Hpos|].
  split.
  - destruct cx as [c|], cy as [d|]; cbn; now apply Hround.
  - destruct cx as [c|], cy as [d|]; reflexivity.
Qed.

Lemma generated_focal_length_not_negative_witness :
  0 < (IZR 640 + IZR 480) / 2 / (2 * tan (deg2rad 60 / 2))
  /\ 0 <= Vis3D.fx (generate_camera_params (fun x => x) (Ret (640, 480)%Z)
                      None None None None 60)
  /\ Vis3D.fy (generate_camera_params (fun x => x) (Ret (640, 480)%Z)
                 None None None None 60)
     = Vis3D.fx (generate_camera_params (fun x => x) (Ret (640, 480)%Z)
                   None None None None 60).
Proof.
  apply generated_focal_length_not_negative.
  - intros x Hx. lra.
  - lia.
  - lia.
  - lra.
Defined.

End CameraFacts.
